(** * SHA-1 length extension (crypto/hash_vegas/sha1_extend.py)

    A shallow embedding of the Python module and the properties of its
    functions.  Python integers are unbounded, so every integer is a [Z] and
    the 32-bit wrap-around is the explicit [& 0xffffffff] of the source.
    [bytes] objects are [list byte]; a [str] is a [list ascii] whose
    characters are code points below 256.  An exception is the [Raise] case
    of [result]. *)

From Stdlib Require Import ZArith List Lia Ascii Bool.
From Stdlib Require String.
Import String.StringSyntax.
Delimit Scope string_scope with string.
From coqutil Require Import Byte Z.bitblast Z.BitOps.
Import ListNotations.
Local Open Scope Z_scope.

(** ** Exceptions *)

Inductive exn : Type :=
| ValueError   (* int() on a bad literal, unpacking a list of the wrong size *)
| StructError. (* struct.error *)

Inductive result (A : Type) : Type :=
| OK (a : A)
| Raise (e : exn).
Arguments OK {A} a.
Arguments Raise {A} e.

Definition bind {A B : Type} (r : result A) (k : A -> result B) : result B :=
  match r with
  | OK a => k a
  | Raise e => Raise e
  end.

Notation "x <- e ;; k" := (bind e (fun x => k))
  (at level 61, e at next level, right associativity).

Fixpoint mapM {A B : Type} (f : A -> result B) (l : list A) : result (list B) :=
  match l with
  | [] => OK []
  | x :: l' => y <- f x ;; ys <- mapM f l' ;; OK (y :: ys)
  end.

(** ** The Python builtins the module uses *)

Module Py.

Definition len {A : Type} (l : list A) : Z := Z.of_nat (length l).

(** [l[i:j]] for non-negative [i] and [j], the only slices of the module. *)
Definition slice {A : Type} (l : list A) (i j : Z) : list A :=
  firstn (Z.to_nat (j - i)) (skipn (Z.to_nat i) l).

(** [range(start, stop, step)] for a positive [step]. *)
Definition range (start stop step : Z) : list Z :=
  map (fun k => start + step * Z.of_nat k)
      (seq 0 (Z.to_nat ((stop - start + step - 1) / step))).

(** [w[i]] and [w[i] = x] on a list, for an index inside the list: the
    module only indexes its 80-entry schedule at 0..79. *)
Definition get (w : list Z) (i : Z) : Z := nth (Z.to_nat i) w 0.

Fixpoint set_nth (w : list Z) (n : nat) (x : Z) : list Z :=
  match w, n with
  | [], _ => []
  | _ :: w', O => x :: w'
  | y :: w', S n' => y :: set_nth w' n' x
  end.

Definition set (w : list Z) (i : Z) (x : Z) : list Z := set_nth w (Z.to_nat i) x.

(** *** struct *)

(** The [n] low bytes of [v], most significant first. *)
Fixpoint be_bytes (n : nat) (v : Z) : list byte :=
  match n with
  | O => []
  | S n' => byte.of_Z (Z.shiftr v (8 * Z.of_nat n')) :: be_bytes n' v
  end.

(** The unsigned integer a byte string denotes, most significant first. *)
Definition be_value (bs : list byte) : Z :=
  fold_left (fun acc b => acc * 256 + byte.unsigned b) bs 0.

Fixpoint be_words (n : nat) (bs : list byte) : list Z :=
  match n with
  | O => []
  | S n' => be_value (firstn 4 bs) :: be_words n' (skipn 4 bs)
  end.

Definition fits (bits v : Z) : bool := (0 <=? v) && (v <? 2 ^ bits).

(** [struct.pack('>Q', v)] *)
Definition pack_Q (v : Z) : result (list byte) :=
  if fits 64 v then OK (be_bytes 8 v) else Raise StructError.

(** [struct.pack('>5I', h0, h1, h2, h3, h4)] *)
Definition pack_5I (h0 h1 h2 h3 h4 : Z) : result (list byte) :=
  if forallb (fits 32) [h0; h1; h2; h3; h4]
  then OK (flat_map (be_bytes 4) [h0; h1; h2; h3; h4])
  else Raise StructError.

(** [struct.unpack('>16I', block)] *)
Definition unpack_16I (block : list byte) : result (list Z) :=
  if (length block =? 64)%nat then OK (be_words 16 block) else Raise StructError.

(** *** bytes.hex *)

Definition hex_char (n : Z) : ascii :=
  nth (Z.to_nat n) (String.list_ascii_of_string "0123456789abcdef"%string) "0"%char.

Definition hex (bs : list byte) : list ascii :=
  flat_map (fun b => [hex_char (byte.unsigned b / 16);
                      hex_char (byte.unsigned b mod 16)]) bs.

(** *** int(s, 16)

    CPython first maps a non-ASCII string to ASCII: characters below 127
    stay, Unicode white space becomes a blank, a Unicode decimal digit
    becomes its ASCII digit, and the string is cut at the first other
    character, which becomes a question mark.  Below 256 the white space
    outside ASCII is U+0085 and U+00A0 and there is no decimal digit
    outside ASCII. *)

Definition code (c : ascii) : Z := Z.of_N (N_of_ascii c).

Definition is_ascii (s : list ascii) : bool := forallb (fun c => code c <? 128) s.

Fixpoint to_ascii_digits (s : list ascii) : list ascii :=
  match s with
  | [] => []
  | c :: s' =>
      if code c <? 127 then c :: to_ascii_digits s'
      else if (code c =? 0x85) || (code c =? 0xA0) then " "%char :: to_ascii_digits s'
      else ["?"%char]
  end.

Definition transform (s : list ascii) : list ascii :=
  if is_ascii s then s else to_ascii_digits s.

(** Py_ISSPACE: blank, \t, \n, \v, \f, \r. *)
Definition is_space (c : ascii) : bool :=
  (code c =? 32) || ((9 <=? code c) && (code c <=? 13)).

Fixpoint skip_spaces (s : list ascii) : list ascii :=
  match s with
  | c :: s' => if is_space c then skip_spaces s' else s
  | [] => []
  end.

(** _PyLong_DigitValue: 37 for a character that is no digit in any base. *)
Definition digit_value (c : ascii) : Z :=
  let n := code c in
  if (48 <=? n) && (n <=? 57) then n - 48
  else if (97 <=? n) && (n <=? 122) then n - 87
  else if (65 <=? n) && (n <=? 90) then n - 55
  else 37.

Definition is_underscore (c : ascii) : bool := code c =? 95.

(** The digit loop: digits and single underscores between them.  [prev]
    tells whether the previous character was an underscore.  The result is
    the value read and the rest of the string, or [None] for a doubled or
    trailing underscore. *)
Fixpoint scan_digits (s : list ascii) (acc : Z) (prev : bool)
  : option (Z * list ascii) :=
  match s with
  | c :: s' =>
      if is_underscore c then
        if prev then None else scan_digits s' acc true
      else if digit_value c <? 16 then
        scan_digits s' (acc * 16 + digit_value c) false
      else if prev then None else Some (acc, s)
  | [] => if prev then None else Some (acc, s)
  end.

Definition strip_sign (s : list ascii) : Z * list ascii :=
  match s with
  | c :: s' =>
      if code c =? 43 then (1, s')
      else if code c =? 45 then (-1, s')
      else (1, s)
  | [] => (1, s)
  end.

(** An optional 0x or 0X, and one underscore after it. *)
Definition strip_prefix (s : list ascii) : list ascii :=
  match s with
  | c0 :: c1 :: s' =>
      if (code c0 =? 48) && ((code c1 =? 120) || (code c1 =? 88)) then
        match s' with
        | c2 :: s'' => if is_underscore c2 then s'' else s'
        | [] => s'
        end
      else s
  | _ => s
  end.

Definition int16 (s : list ascii) : result Z :=
  let s := skip_spaces (transform s) in
  let '(sign, s) := strip_sign s in
  let s := strip_prefix s in
  match s with
  | [] => Raise ValueError
  | c :: _ =>
      if is_underscore c then Raise ValueError
      else
        match scan_digits s 0 false with
        | None => Raise ValueError
        | Some (v, rest) =>
            if (length rest =? length s)%nat then Raise ValueError
            else
              match skip_spaces rest with
              | [] => OK (sign * v)
              | _ :: _ => Raise ValueError
              end
        end
  end.

End Py.

(** ** The module *)

Definition sha1_padding (msg_len : Z) : result (list byte) :=
  let ml_bits := msg_len * 8 in
  let padding := [Byte.x80] in
  let padding :=
    padding ++ repeat Byte.x00 (Z.to_nat ((56 - (msg_len + 1) mod 64) mod 64)) in
  q <- Py.pack_Q ml_bits ;;
  OK (padding ++ q).

Definition _left_rotate (n b : Z) : Z :=
  let n := Z.land n 0xffffffff in
  Z.land (Z.lor (Z.shiftl n b) (Z.shiftr n (32 - b))) 0xffffffff.

Definition state : Type := Z * Z * Z * Z * Z.

(** The body of the schedule loop, [for i in range(16, 80)]. *)
Definition schedule_step (w : list Z) (i : Z) : list Z :=
  Py.set w i
    (_left_rotate
       (Z.lxor (Z.lxor (Z.lxor (Py.get w (i - 3)) (Py.get w (i - 8)))
                       (Py.get w (i - 14)))
               (Py.get w (i - 16))) 1).

(** The body of the round loop, [for i in range(80)]. *)
Definition round_step (w : list Z) (r : state) (i : Z) : state :=
  let '(a, b, c, d, e) := r in
  let '(f, k) :=
    if i <? 20 then (Z.lor (Z.land b c) (Z.land (Z.lnot b) d), 0x5A827999)
    else if i <? 40 then (Z.lxor (Z.lxor b c) d, 0x6ED9EBA1)
    else if i <? 60 then
      (Z.lor (Z.lor (Z.land b c) (Z.land b d)) (Z.land c d), 0x8F1BBCDC)
    else (Z.lxor (Z.lxor b c) d, 0xCA62C1D6) in
  let temp := Z.land (_left_rotate a 5 + f + e + k + Py.get w i) 0xffffffff in
  (temp, a, _left_rotate b 30, c, d).

Definition sha1_process_block (block : list byte) (h0 h1 h2 h3 h4 : Z)
  : result state :=
  ws <- Py.unpack_16I block ;;
  let w := ws ++ repeat 0 64 in
  let w := fold_left schedule_step (Py.range 16 80 1) w in
  let '(a, b, c, d, e) := fold_left (round_step w) (Py.range 0 80 1) (h0, h1, h2, h3, h4) in
  OK (Z.land (h0 + a) 0xffffffff,
      Z.land (h1 + b) 0xffffffff,
      Z.land (h2 + c) 0xffffffff,
      Z.land (h3 + d) 0xffffffff,
      Z.land (h4 + e) 0xffffffff).

(** The block loop of [sha1_extend_hash]: [idx] is what is left of
    [range(0, len(padded_data), 64)]; a block shorter than 64 bytes leaves
    the loop. *)
Fixpoint block_loop (padded_data : list byte) (idx : list Z) (h : state)
  : result state :=
  match idx with
  | [] => OK h
  | i :: idx' =>
      let block := Py.slice padded_data i (i + 64) in
      if Py.len block <? 64 then OK h
      else
        let '(h0, h1, h2, h3, h4) := h in
        h' <- sha1_process_block block h0 h1 h2 h3 h4 ;;
        block_loop padded_data idx' h'
  end.

Definition sha1_extend_hash (initial_state : list Z) (data : list byte)
  (previous_length : Z) : result (list byte) :=
  match initial_state with
  | [h0; h1; h2; h3; h4] =>
      let total_length := previous_length + Py.len data in
      pad <- sha1_padding total_length ;;
      let padded_data := data ++ pad in
      h <- block_loop padded_data (Py.range 0 (Py.len padded_data) 64)
             (h0, h1, h2, h3, h4) ;;
      let '(h0, h1, h2, h3, h4) := h in
      Py.pack_5I h0 h1 h2 h3 h4
  | _ => Raise ValueError
  end.

(** The list comprehension of [sha1_extend]: the five 8-character groups of
    the first 40 characters, each read by [int(group, 16)]. *)
Definition parse_state (original_hash_hex : list ascii) : result (list Z) :=
  mapM (fun i => Py.int16 (Py.slice original_hash_hex i (i + 8))) (Py.range 0 40 8).

Definition sha1_extend (original_hash_hex : list ascii)
  (original_data append_data : list byte) (secret_length : Z)
  : result (list ascii * list byte) :=
  h <- parse_state original_hash_hex ;;
  let original_msg_len := secret_length + Py.len original_data in
  padding <- sha1_padding original_msg_len ;;
  let new_data := original_data ++ padding ++ append_data in
  new_hash <- sha1_extend_hash h append_data (original_msg_len + Py.len padding) ;;
  OK (Py.hex new_hash, new_data).

(** ** Reference definitions *)

Definition word32 (x : Z) : Prop := 0 <= x < 2 ^ 32.

Definition state_ok (h : state) : Prop :=
  let '(h0, h1, h2, h3, h4) := h in
  word32 h0 /\ word32 h1 /\ word32 h2 /\ word32 h3 /\ word32 h4.

(** The 20 digest bytes of a state: [struct.pack('>5I', ...)] without its
    range check. *)
Definition state_bytes (h : state) : list byte :=
  let '(h0, h1, h2, h3, h4) := h in
  flat_map (Py.be_bytes 4) [h0; h1; h2; h3; h4].

(** The first [n] consecutive 64-byte blocks of a byte string. *)
Fixpoint blocks (n : nat) (l : list byte) : list (list byte) :=
  match n with
  | O => []
  | S n' => firstn 64 l :: blocks n' (skipn 64 l)
  end.

(** The compression function folded over a list of blocks. *)
Fixpoint fold_blocks (bs : list (list byte)) (h : state) : result state :=
  match bs with
  | [] => OK h
  | b :: bs' =>
      let '(h0, h1, h2, h3, h4) := h in
      h' <- sha1_process_block b h0 h1 h2 h3 h4 ;;
      fold_blocks bs' h'
  end.

(** The compression function as the specification words it, on words
    kept below 2^32 by arithmetic modulo 2^32: the 16 big-endian words of the
    block, the schedule w[i] = rotl(w[i-3] xor w[i-8] xor w[i-14] xor
    w[i-16], 1), 80 rounds with the functions and constants of FIPS 180-4
    (4.1.1 and 4.2.1), and the final addition into the input state. *)
Module Standard.

Definition add32 (x y : Z) : Z := (x + y) mod 2 ^ 32.

Definition rotl (x n : Z) : Z := (x * 2 ^ n) mod 2 ^ 32 + x / 2 ^ (32 - n).

Definition not32 (x : Z) : Z := 2 ^ 32 - 1 - x.

Definition Ch (x y z : Z) : Z := Z.lxor (Z.land x y) (Z.land (not32 x) z).

Definition Parity (x y z : Z) : Z := Z.lxor (Z.lxor x y) z.

Definition Maj (x y z : Z) : Z :=
  Z.lxor (Z.lxor (Z.land x y) (Z.land x z)) (Z.land y z).

Definition f (t : nat) : Z -> Z -> Z -> Z :=
  if (t <? 20)%nat then Ch
  else if (t <? 40)%nat then Parity
  else if (t <? 60)%nat then Maj
  else Parity.

Definition k (t : nat) : Z :=
  if (t <? 20)%nat then 0x5A827999
  else if (t <? 40)%nat then 0x6ED9EBA1
  else if (t <? 60)%nat then 0x8F1BBCDC
  else 0xCA62C1D6.

Fixpoint words (block : list byte) : list Z :=
  match block with
  | b0 :: b1 :: b2 :: b3 :: block' =>
      (byte.unsigned b0 * 2 ^ 24 + byte.unsigned b1 * 2 ^ 16
       + byte.unsigned b2 * 2 ^ 8 + byte.unsigned b3) :: words block'
  | _ => []
  end.

(** The first [16 + n] words of the schedule. *)
Fixpoint schedule (ws : list Z) (n : nat) : list Z :=
  match n with
  | O => ws
  | S n' =>
      let w := schedule ws n' in
      let i := length w in
      w ++ [rotl (Z.lxor (Z.lxor (Z.lxor (nth (i - 3) w 0) (nth (i - 8) w 0))
                                 (nth (i - 14) w 0))
                         (nth (i - 16) w 0)) 1]
  end.

Definition round (w : list Z) (r : state) (t : nat) : state :=
  let '(a, b, c, d, e) := r in
  (add32 (add32 (add32 (add32 (rotl a 5) (f t b c d)) e) (k t)) (nth t w 0),
   a, rotl b 30, c, d).

Definition compress (h : state) (block : list byte) : state :=
  let w := schedule (words block) 64 in
  let '(a, b, c, d, e) := fold_left (round w) (seq 0 80) h in
  let '(h0, h1, h2, h3, h4) := h in
  (add32 h0 a, add32 h1 b, add32 h2 c, add32 h3 d, add32 h4 e).

End Standard.

(** The initial chaining state of SHA-1 (FIPS 180-4, 5.3.1). *)
Definition IV : state :=
  (0x67452301, 0xEFCDAB89, 0x98BADCFE, 0x10325476, 0xC3D2E1F0).

(** Modelled from the spec: the digest engine, which the module leaves to
    hashlib.  The spec has it compute [pad(len(message))], fold the
    compression function over [message + padding] split into consecutive
    64-byte blocks, from the fixed standard initial state, and serialize
    the final state. *)
Definition digest (message : list byte) : result (list byte) :=
  padding <- sha1_padding (Py.len message) ;;
  let padded := message ++ padding in
  h <- fold_blocks (blocks ((length padded + 63) / 64) padded) IV ;;
  let '(h0, h1, h2, h3, h4) := h in
  Py.pack_5I h0 h1 h2 h3 h4.

(** SHA-1 as FIPS 180-4 defines it, with nothing of the module in it:
    the padding of 5.1.1 (the bit 1, the least number of zero bits that brings
    the length to 448 modulo 512, the length in bits on 64 bits), the blocks
    of 5.2.1, the initial state of 5.3.1, the compression function above for
    6.1.2, the five final words most significant byte first, and the hexadecimal
    digest written with the digits 0-9 and a-f. *)
Module Sha1.

Definition be64 (v : Z) : list byte :=
  map (fun i => byte.of_Z (v / 2 ^ (8 * i))) [7; 6; 5; 4; 3; 2; 1; 0].

Definition pad (L : Z) : list byte :=
  [Byte.x80] ++ repeat Byte.x00 (Z.to_nat ((55 - L) mod 64)) ++ be64 (8 * L).

Definition word_bytes (w : Z) : list byte :=
  map (fun i => byte.of_Z (w / 2 ^ (8 * i))) [3; 2; 1; 0].

Definition serialize (h : state) : list byte :=
  let '(h0, h1, h2, h3, h4) := h in
  word_bytes h0 ++ word_bytes h1 ++ word_bytes h2 ++ word_bytes h3 ++ word_bytes h4.

Definition digest (message : list byte) : list byte :=
  let padded := message ++ pad (Py.len message) in
  serialize (fold_left Standard.compress (blocks (length padded / 64) padded) IV).

Definition hex_digit (n : Z) : ascii :=
  match n with
  | 0 => "0" | 1 => "1" | 2 => "2" | 3 => "3" | 4 => "4" | 5 => "5" | 6 => "6"
  | 7 => "7" | 8 => "8" | 9 => "9" | 10 => "a" | 11 => "b" | 12 => "c"
  | 13 => "d" | 14 => "e" | 15 => "f" | _ => "?"
  end%char.

Definition hex (bs : list byte) : list ascii :=
  flat_map (fun b => [hex_digit (byte.unsigned b / 16);
                      hex_digit (byte.unsigned b mod 16)]) bs.

Definition hexdigest (message : list byte) : list ascii := hex (digest message).

End Sha1.

(** Hexadecimal digits, their values, and the number and the bytes a
    string of them denotes. *)
Definition is_hex (c : ascii) : bool :=
  let n := Py.code c in
  ((48 <=? n) && (n <=? 57)) || ((97 <=? n) && (n <=? 102)) || ((65 <=? n) && (n <=? 70)).

Definition hex_val (c : ascii) : Z :=
  let n := Py.code c in
  if n <=? 57 then n - 48 else if 97 <=? n then n - 87 else n - 55.

Definition hex_number (s : list ascii) : Z :=
  fold_left (fun acc c => 16 * acc + hex_val c) s 0.

Fixpoint fromhex (s : list ascii) : list byte :=
  match s with
  | c1 :: c2 :: s' => byte.of_Z (16 * hex_val c1 + hex_val c2) :: fromhex s'
  | _ => []
  end.


(** The state parsed from a string whose first 40 characters are
    hexadecimal digits. *)
Definition hex_state (s : list ascii) : list Z :=
  map (fun i => hex_number (Py.slice s i (i + 8))) [0; 8; 16; 24; 32].


(** The five words of a state as the list [sha1_extend_hash] takes. *)
Definition state_words (h : state) : list Z :=
  let '(h0, h1, h2, h3, h4) := h in [h0; h1; h2; h3; h4].

(** The digits [bytes.hex] writes: 0-9 and a-f. *)
Definition is_lower_hex (c : ascii) : bool :=
  let n := Py.code c in
  ((48 <=? n) && (n <=? 57)) || ((97 <=? n) && (n <=? 102)).

(** An ASCII capital letter turned into its small letter. *)
Definition to_lower (c : ascii) : ascii :=
  let n := Py.code c in
  if (65 <=? n) && (n <=? 90) then ascii_of_N (Z.to_N (n + 32)) else c.

(** Equality of the low 32 bits. *)
Definition eqm32 (x y : Z) : Prop := Z.land x 0xffffffff = Z.land y 0xffffffff.

Definition state_eqm32 (r r' : state) : Prop :=
  let '(a, b, c, d, e) := r in
  let '(a', b', c', d', e') := r' in
  eqm32 a a' /\ eqm32 b b' /\ eqm32 c c' /\ eqm32 d d' /\ eqm32 e e'.

(** * Properties *)

(** Case analysis on every comparison of integers in sight. *)
Ltac zbool :=
  repeat (match goal with
          | |- context [?a <=? ?b] => destruct (Z.leb_spec a b)
          | |- context [?a <? ?b] => destruct (Z.ltb_spec a b)
          | |- context [?a =? ?b] => destruct (Z.eqb_spec a b)
          | H : context [?a <=? ?b] |- _ => destruct (Z.leb_spec a b)
          | H : context [?a <? ?b] |- _ => destruct (Z.ltb_spec a b)
          | H : context [?a =? ?b] |- _ => destruct (Z.eqb_spec a b)
          end;
          cbn [andb orb negb] in *; try discriminate; try (exfalso; lia));
  try lia; try reflexivity.

(** ** Byte strings and big-endian integers *)

Lemma result_bind_ok {A B : Type} (r : result A) (k : A -> result B) (b : B) :
  bind r k = OK b -> exists a, r = OK a /\ k a = OK b.
Proof. destruct r as [a|e]; simpl; intros H; [eauto | discriminate]. Qed.

Lemma mask32 (x : Z) : Z.land x 0xffffffff = x mod 2 ^ 32.
Proof. change 0xffffffff with (Z.ones 32). apply Z.land_ones. lia. Qed.

Lemma mask32_word (x : Z) : word32 (Z.land x 0xffffffff).
Proof. rewrite mask32. apply Z.mod_pos_bound. lia. Qed.

Lemma length_be_bytes (n : nat) (v : Z) : length (Py.be_bytes n v) = n.
Proof. induction n; simpl; congruence. Qed.

Lemma be_value_acc (bs : list byte) (acc : Z) :
  fold_left (fun a b => a * 256 + byte.unsigned b) bs acc
  = acc * 256 ^ Py.len bs + Py.be_value bs.
Proof.
  unfold Py.be_value, Py.len. revert acc.
  induction bs as [|b bs IH]; intros acc; cbn [fold_left].
  - simpl. lia.
  - rewrite IH, (IH (0 * 256 + _)).
    replace (Z.of_nat (length (b :: bs))) with (Z.of_nat (length bs) + 1)
      by (simpl length; lia).
    rewrite Z.pow_add_r by lia. lia.
Qed.

Lemma be_value_cons (b : byte) (bs : list byte) :
  Py.be_value (b :: bs) = byte.unsigned b * 256 ^ Py.len bs + Py.be_value bs.
Proof.
  unfold Py.be_value at 1. cbn [fold_left]. rewrite be_value_acc. lia.
Qed.

Lemma be_value_range (bs : list byte) : 0 <= Py.be_value bs < 256 ^ Py.len bs.
Proof.
  induction bs as [|b bs IH].
  - cbv. split; congruence.
  - rewrite be_value_cons.
    replace (Py.len (b :: bs)) with (Py.len bs + 1)
      by (unfold Py.len; simpl length; lia).
    rewrite Z.pow_add_r by (unfold Py.len; lia).
    pose proof (byte.unsigned_range b) as Hb. change (2 ^ 8) with 256 in Hb.
    nia.
Qed.

Lemma be_value_be_bytes_mod (n : nat) (v : Z) :
  Py.be_value (Py.be_bytes n v) = v mod 256 ^ Z.of_nat n.
Proof.
  induction n as [|n IH].
  - simpl. rewrite Z.mod_1_r. reflexivity.
  - cbn [Py.be_bytes]. rewrite be_value_cons, IH, byte.unsigned_of_Z.
    unfold byte.wrap, Py.len. rewrite length_be_bytes.
    rewrite Z.shiftr_div_pow2 by lia.
    replace (2 ^ (8 * Z.of_nat n)) with (256 ^ Z.of_nat n)
      by (change 256 with (2 ^ 8); rewrite <- Z.pow_mul_r by lia; reflexivity).
    replace (Z.of_nat (S n)) with (Z.of_nat n + 1) by lia.
    rewrite Z.pow_add_r by lia. change (256 ^ 1) with 256. change (2 ^ 8) with 256.
    assert (0 < 256 ^ Z.of_nat n) by (apply Z.pow_pos_nonneg; lia).
    rewrite (Z.rem_mul_r v (256 ^ Z.of_nat n) 256) by lia. lia.
Qed.

Lemma be_value_be_bytes (n : nat) (v : Z) :
  0 <= v < 256 ^ Z.of_nat n -> Py.be_value (Py.be_bytes n v) = v.
Proof. intros H. rewrite be_value_be_bytes_mod. apply Z.mod_small, H. Qed.

(** ** Padding *)

Lemma sha1_padding_ok (L : Z) :
  0 <= L -> L * 8 < 2 ^ 64 ->
  sha1_padding L
  = OK ([Byte.x80] ++ repeat Byte.x00 (Z.to_nat ((56 - (L + 1) mod 64) mod 64))
          ++ Py.be_bytes 8 (L * 8)).
Proof.
  intros H0 H1. unfold sha1_padding, Py.pack_Q, Py.fits.
  replace (0 <=? L * 8) with true by (symmetry; apply Z.leb_le; lia).
  replace (L * 8 <? 2 ^ 64) with true by (symmetry; apply Z.ltb_lt; lia).
  cbn [bind andb]. rewrite <- app_assoc. reflexivity.
Qed.

Lemma sha1_padding_inv (L : Z) (p : list byte) :
  sha1_padding L = OK p -> 0 <= L /\ L * 8 < 2 ^ 64.
Proof.
  unfold sha1_padding, Py.pack_Q, Py.fits.
  destruct (0 <=? L * 8) eqn:E1; [|discriminate].
  destruct (L * 8 <? 2 ^ 64) eqn:E2; [|discriminate].
  intros _. apply Z.leb_le in E1. apply Z.ltb_lt in E2. lia.
Qed.

Lemma sha1_padding_len (L : Z) (p : list byte) :
  sha1_padding L = OK p ->
  Py.len p = 9 + (56 - (L + 1) mod 64) mod 64 /\ (L + Py.len p) mod 64 = 0.
Proof.
  intros H. destruct (sha1_padding_inv _ _ H) as [H0 H1].
  rewrite sha1_padding_ok in H by assumption.
  assert (Hp : [Byte.x80] ++ repeat Byte.x00 (Z.to_nat ((56 - (L + 1) mod 64) mod 64))
               ++ Py.be_bytes 8 (L * 8) = p) by congruence.
  clear H. subst p.
  unfold Py.len. rewrite !length_app, repeat_length, length_be_bytes.
  change (length [Byte.x80]) with 1%nat.
  assert (0 <= (56 - (L + 1) mod 64) mod 64 < 64) by (apply Z.mod_pos_bound; lia).
  split; [lia|].
  replace (Z.of_nat (1 + (Z.to_nat ((56 - (L + 1) mod 64) mod 64) + 8)))
    with (9 + (56 - (L + 1) mod 64) mod 64) by lia.
  Z.div_mod_to_equations. lia.
Qed.

(** C3: the padding of a byte length [L] whose bit length fits 64 bits is
    0x80, then the least number [k] of zero bytes with
    [L + 1 + k = 56 (mod 64)], then the 8 big-endian bytes of [L * 8]; so it
    has 9 to 72 bytes, it completes [L] to a multiple of 64 and its last 8
    bytes denote [L * 8]. *)
Theorem sha1_padding_spec (L : Z) :
  0 <= L -> L * 8 < 2 ^ 64 ->
  exists (k : nat) (p : list byte),
    sha1_padding L = OK p /\
    p = [Byte.x80] ++ repeat Byte.x00 k ++ Py.be_bytes 8 (L * 8) /\
    (L + 1 + Z.of_nat k) mod 64 = 56 /\
    (forall j, 0 <= j < Z.of_nat k -> (L + 1 + j) mod 64 <> 56) /\
    9 <= Py.len p <= 72 /\
    (L + Py.len p) mod 64 = 0 /\
    Py.be_value (skipn (length p - 8) p) = L * 8.
Proof.
  intros H0 H1.
  exists (Z.to_nat ((56 - (L + 1) mod 64) mod 64)). eexists.
  split; [apply sha1_padding_ok; assumption|].
  pose proof (sha1_padding_len L _ (sha1_padding_ok L H0 H1)) as [Hlen Hmod].
  assert (Hk : 0 <= (56 - (L + 1) mod 64) mod 64 < 64) by (apply Z.mod_pos_bound; lia).
  split; [reflexivity|].
  split; [rewrite Z2Nat.id by lia; Z.div_mod_to_equations; lia|].
  split; [intros j Hj; rewrite Z2Nat.id in Hj by lia; Z.div_mod_to_equations; lia|].
  split; [lia|].
  split; [assumption|].
  set (zs := repeat Byte.x00 _).
  rewrite app_assoc, length_app, length_be_bytes, Nat.add_sub.
  rewrite skipn_app, skipn_all, Nat.sub_diag. cbn [app skipn].
  apply be_value_be_bytes. change (256 ^ Z.of_nat 8) with (2 ^ 64). lia.
Qed.

(** The padding of a one-byte message: 0x80, 54 zero bytes, the length 8. *)
Lemma sha1_padding_spec_witness :
  exists (k : nat) (p : list byte),
    sha1_padding 1 = OK p /\
    p = [Byte.x80] ++ repeat Byte.x00 k ++ Py.be_bytes 8 (1 * 8) /\
    (1 + 1 + Z.of_nat k) mod 64 = 56 /\
    (forall j, 0 <= j < Z.of_nat k -> (1 + 1 + j) mod 64 <> 56) /\
    9 <= Py.len p <= 72 /\
    (1 + Py.len p) mod 64 = 0 /\
    Py.be_value (skipn (length p - 8) p) = 1 * 8.
Proof. apply (sha1_padding_spec 1); lia. Defined.

(** ** The compression function on its own *)

Lemma sha1_process_block_short (block : list byte) (h0 h1 h2 h3 h4 : Z) :
  length block <> 64%nat ->
  sha1_process_block block h0 h1 h2 h3 h4 = Raise StructError.
Proof.
  intros H. unfold sha1_process_block, Py.unpack_16I.
  apply Nat.eqb_neq in H. rewrite H. reflexivity.
Qed.

Lemma sha1_process_block_word (block : list byte) (h0 h1 h2 h3 h4 : Z) (r : state) :
  sha1_process_block block h0 h1 h2 h3 h4 = OK r -> state_ok r.
Proof.
  unfold sha1_process_block. intros H.
  apply result_bind_ok in H as (ws & _ & H).
  destruct (fold_left _ _ _) as [[[[a b] c] d] e].
  injection H as <-. unfold state_ok. repeat split; apply mask32_word.
Qed.

Lemma sha1_process_block_full (block : list byte) (h0 h1 h2 h3 h4 : Z) :
  length block = 64%nat ->
  exists r, sha1_process_block block h0 h1 h2 h3 h4 = OK r /\ state_ok r.
Proof.
  intros H.
  assert (E : exists r, sha1_process_block block h0 h1 h2 h3 h4 = OK r).
  { unfold sha1_process_block, Py.unpack_16I.
    apply Nat.eqb_eq in H. rewrite H. cbn [bind].
    destruct (fold_left _ _ _) as [[[[a b] c] d] e]. eauto. }
  destruct E as [r E]. exists r. split; [exact E|].
  eapply sha1_process_block_word, E.
Qed.

(** C7: a block that is not exactly 64 bytes long makes
    [sha1_process_block] raise (the [struct.error] of the unpacking), whatever
    the state; on a block of exactly 64 bytes it returns a state. *)
Theorem sha1_process_block_needs_64_bytes (block : list byte) (h0 h1 h2 h3 h4 : Z) :
  (length block <> 64%nat ->
   sha1_process_block block h0 h1 h2 h3 h4 = Raise StructError) /\
  (length block = 64%nat ->
   exists r, sha1_process_block block h0 h1 h2 h3 h4 = OK r).
Proof.
  split; intros H.
  - apply sha1_process_block_short, H.
  - destruct (sha1_process_block_full block h0 h1 h2 h3 h4 H) as (r & E & _). eauto.
Qed.

(** A 63-byte block is refused and a 64-byte block is accepted. *)
Lemma sha1_process_block_needs_64_bytes_witness :
  sha1_process_block (repeat Byte.x61 63) 1 2 3 4 5 = Raise StructError /\
  exists r, sha1_process_block (repeat Byte.x61 64) 1 2 3 4 5 = OK r.
Proof.
  split.
  - apply (sha1_process_block_needs_64_bytes (repeat Byte.x61 63) 1 2 3 4 5).
    vm_compute. discriminate.
  - apply (sha1_process_block_needs_64_bytes (repeat Byte.x61 64) 1 2 3 4 5).
    reflexivity.
Defined.

(** ** The block loop *)

Lemma bind_ret {A : Type} (r : result A) : bind r (fun a => OK a) = r.
Proof. destruct r; reflexivity. Qed.

Lemma range_0_64 (L : Z) :
  Py.range 0 L 64
  = map (fun k => 64 * Z.of_nat k) (seq 0 (Z.to_nat ((L + 63) / 64))).
Proof.
  unfold Py.range. replace (L - 0 + 64 - 1) with (L + 63) by lia.
  apply map_ext. intros k. lia.
Qed.

Lemma slice_block (l : list byte) (j : nat) :
  Py.slice l (64 * Z.of_nat j) (64 * Z.of_nat j + 64) = firstn 64 (skipn (64 * j) l).
Proof.
  unfold Py.slice.
  replace (Z.to_nat (64 * Z.of_nat j + 64 - 64 * Z.of_nat j)) with 64%nat by lia.
  replace (Z.to_nat (64 * Z.of_nat j)) with (64 * j)%nat by lia.
  reflexivity.
Qed.

Lemma block_loop_full (padded : list byte) (rest : list Z) :
  forall (m j : nat) (h : state),
    (64 * (j + m) <= length padded)%nat ->
    block_loop padded (map (fun k => 64 * Z.of_nat k) (seq j m) ++ rest) h
    = (h' <- fold_blocks (blocks m (skipn (64 * j) padded)) h ;;
       block_loop padded rest h').
Proof.
  induction m as [|m IH]; intros j h Hlen.
  - reflexivity.
  - cbn [seq map app block_loop blocks fold_blocks].
    rewrite slice_block.
    assert (Hb : length (firstn 64 (skipn (64 * j) padded)) = 64%nat).
    { rewrite length_firstn, length_skipn. lia. }
    unfold Py.len at 1. rewrite Hb. cbn [Z.ltb Z.of_nat].
    replace (Z.pos (Pos.of_succ_nat 63) <? 64) with false by reflexivity.
    destruct h as [[[[h0 h1] h2] h3] h4].
    destruct (sha1_process_block _ h0 h1 h2 h3 h4) as [h'|e]; cbn [bind].
    + rewrite skipn_skipn.
      replace (64 + 64 * j)%nat with (64 * S j)%nat by lia.
      apply IH. lia.
    + reflexivity.
Qed.

Lemma block_loop_break (padded : list byte) (rest : list Z) (j : nat) (h : state) :
  (length padded < 64 * j + 64)%nat ->
  block_loop padded (64 * Z.of_nat j :: rest) h = OK h.
Proof.
  intros H. cbn [block_loop]. rewrite slice_block.
  unfold Py.len. rewrite length_firstn, length_skipn.
  replace (_ <? 64) with true by (symmetry; apply Z.ltb_lt; lia).
  reflexivity.
Qed.

(** The loop of [sha1_extend_hash] compresses the full 64-byte blocks of
    [padded_data], in order, and nothing else. *)
Lemma block_loop_range (padded : list byte) (h : state) :
  block_loop padded (Py.range 0 (Py.len padded) 64) h
  = fold_blocks (blocks (length padded / 64) padded) h.
Proof.
  rewrite range_0_64. unfold Py.len.
  pose proof (Nat.div_mod_eq (length padded) 64) as Hdm.
  pose proof (Nat.mod_upper_bound (length padded) 64 ltac:(lia)) as Hr.
  set (n := (length padded / 64)%nat) in *.
  set (r := (length padded mod 64)%nat) in *.
  destruct (Nat.eq_dec r 0) as [Hr0|Hr0].
  - replace (Z.to_nat ((Z.of_nat (length padded) + 63) / 64)) with n
      by (rewrite Hdm, Hr0; Z.div_mod_to_equations; lia).
    rewrite <- (app_nil_r (map _ _)).
    rewrite block_loop_full by lia.
    cbn [skipn block_loop]. replace (64 * 0)%nat with 0%nat by lia.
    cbn [skipn]. apply bind_ret.
  - replace (Z.to_nat ((Z.of_nat (length padded) + 63) / 64)) with (n + 1)%nat
      by (rewrite Hdm; Z.div_mod_to_equations; lia).
    rewrite seq_app, map_app. cbn [seq map Nat.add].
    rewrite block_loop_full by lia.
    replace (64 * 0)%nat with 0%nat by lia. cbn [skipn].
    destruct (fold_blocks _ h) as [h'|e]; cbn [bind]; [|reflexivity].
    apply block_loop_break. lia.
Qed.

Lemma blocks_full (n : nat) :
  forall l : list byte,
    (64 * n <= length l)%nat -> Forall (fun b => length b = 64%nat) (blocks n l).
Proof.
  induction n as [|n IH]; intros l H; cbn [blocks]; constructor.
  - rewrite length_firstn. lia.
  - apply IH. rewrite length_skipn. lia.
Qed.

Lemma firstn_plus {A : Type} (n m : nat) :
  forall l : list A, firstn (n + m) l = firstn n l ++ firstn m (skipn n l).
Proof.
  induction n as [|n IH]; intros l.
  - reflexivity.
  - destruct l as [|x l].
    + cbn [Nat.add firstn skipn app]. rewrite firstn_nil. reflexivity.
    + cbn [Nat.add firstn skipn app]. rewrite IH. reflexivity.
Qed.

Lemma blocks_concat (n : nat) :
  forall l : list byte, concat (blocks n l) = firstn (64 * n) l.
Proof.
  induction n as [|n IH]; intros l; cbn [blocks concat].
  - reflexivity.
  - rewrite IH. replace (64 * S n)%nat with (64 + 64 * n)%nat by lia.
    rewrite firstn_plus. reflexivity.
Qed.

Lemma blocks_app (n m : nat) :
  forall l : list byte, blocks (n + m) l = blocks n l ++ blocks m (skipn (64 * n) l).
Proof.
  induction n as [|n IH]; intros l.
  - reflexivity.
  - cbn [Nat.add blocks app]. rewrite IH, skipn_skipn.
    replace (64 * n + 64)%nat with (64 * S n)%nat by lia. reflexivity.
Qed.

Lemma fold_blocks_app (bs1 bs2 : list (list byte)) :
  forall h, fold_blocks (bs1 ++ bs2) h = (h' <- fold_blocks bs1 h ;; fold_blocks bs2 h').
Proof.
  induction bs1 as [|b bs1 IH]; intros h; cbn [app fold_blocks].
  - reflexivity.
  - destruct h as [[[[h0 h1] h2] h3] h4].
    destruct (sha1_process_block b h0 h1 h2 h3 h4); cbn [bind]; auto.
Qed.

Lemma fold_blocks_ok (bs : list (list byte)) :
  forall h h', state_ok h -> fold_blocks bs h = OK h' -> state_ok h'.
Proof.
  induction bs as [|b bs IH]; intros h h' Hh H; cbn [fold_blocks] in H.
  - congruence.
  - destruct h as [[[[h0 h1] h2] h3] h4].
    apply result_bind_ok in H as (h1' & E & H).
    eapply IH; [|exact H]. eapply sha1_process_block_word, E.
Qed.

Lemma fold_blocks_full (bs : list (list byte)) :
  Forall (fun b => length b = 64%nat) bs ->
  forall h, exists h', fold_blocks bs h = OK h' /\ (bs <> [] -> state_ok h').
Proof.
  induction 1 as [|b bs Hb _ IH]; intros h; cbn [fold_blocks].
  - exists h. split; [reflexivity | congruence].
  - destruct h as [[[[h0 h1] h2] h3] h4].
    destruct (sha1_process_block_full b h0 h1 h2 h3 h4 Hb) as (r & E & Hr).
    rewrite E. cbn [bind].
    destruct (IH r) as (h' & E' & _). exists h'. split; [exact E'|].
    intros _. eapply fold_blocks_ok; eassumption.
Qed.

(** ** Reading hexadecimal *)

Lemma is_hex_digit (c : ascii) :
  is_hex c = true ->
  Py.digit_value c = hex_val c /\ 0 <= hex_val c < 16.
Proof. unfold is_hex, Py.digit_value, hex_val. cbv zeta. intros H. zbool. Qed.

Lemma is_hex_plain (c : ascii) :
  is_hex c = true ->
  Py.is_underscore c = false /\ Py.is_space c = false /\ Py.code c < 127 /\
  Py.code c <> 43 /\ Py.code c <> 45 /\ Py.code c <> 120 /\ Py.code c <> 88.
Proof. unfold is_hex, Py.is_underscore, Py.is_space. cbv zeta. intros H. zbool. Qed.

Lemma scan_digits_hex (s : list ascii) :
  Forall (fun c => is_hex c = true) s ->
  forall acc,
    Py.scan_digits s acc false
    = Some (fold_left (fun a c => 16 * a + hex_val c) s acc, []).
Proof.
  induction 1 as [|c s Hc _ IH]; intros acc; cbn [Py.scan_digits fold_left].
  - reflexivity.
  - destruct (is_hex_digit c Hc) as [Hd Hr].
    destruct (is_hex_plain c Hc) as (Hu & _).
    rewrite Hu, Hd.
    replace (hex_val c <? 16) with true by (symmetry; apply Z.ltb_lt; lia).
    rewrite IH. replace (acc * 16 + hex_val c) with (16 * acc + hex_val c) by lia.
    reflexivity.
Qed.

Lemma transform_hex (s : list ascii) :
  Forall (fun c => is_hex c = true) s -> Py.transform s = s.
Proof.
  intros H. unfold Py.transform.
  replace (Py.is_ascii s) with true; [reflexivity|].
  symmetry. unfold Py.is_ascii. apply forallb_forall. intros c Hc.
  rewrite Forall_forall in H. destruct (is_hex_plain c (H c Hc)) as (_ & _ & Hl & _).
  apply Z.ltb_lt. lia.
Qed.

(** [int(s, 16)] on a non-empty string of hexadecimal digits is the number
    the digits denote. *)
Lemma int16_hex (s : list ascii) :
  s <> [] -> Forall (fun c => is_hex c = true) s -> Py.int16 s = OK (hex_number s).
Proof.
  intros Hne H. unfold Py.int16. rewrite transform_hex by assumption.
  destruct s as [|c s]; [congruence|].
  pose proof (Forall_inv H) as Hc.
  destruct (is_hex_plain c Hc) as (Hu & Hs & _ & Hplus & Hminus & Hx & HX).
  cbn [Py.skip_spaces]. rewrite Hs. cbn [Py.strip_sign].
  replace (Py.code c =? 43) with false by (symmetry; apply Z.eqb_neq; assumption).
  replace (Py.code c =? 45) with false by (symmetry; apply Z.eqb_neq; assumption).
  assert (Hp : Py.strip_prefix (c :: s) = c :: s).
  { destruct s as [|c1 s]; [reflexivity|]. cbn [Py.strip_prefix].
    pose proof (Forall_inv (Forall_inv_tail H)) as Hc1.
    destruct (is_hex_plain c1 Hc1) as (_ & _ & _ & _ & _ & Hx1 & HX1).
    replace (Py.code c1 =? 120) with false by (symmetry; apply Z.eqb_neq; assumption).
    replace (Py.code c1 =? 88) with false by (symmetry; apply Z.eqb_neq; assumption).
    rewrite andb_false_r. reflexivity. }
  rewrite Hp, Hu, scan_digits_hex by assumption.
  cbn [length Nat.eqb Py.skip_spaces]. unfold hex_number. f_equal. lia.
Qed.

Lemma hex_number_acc (s : list ascii) (acc : Z) :
  fold_left (fun a c => 16 * a + hex_val c) s acc
  = acc * 16 ^ Py.len s + hex_number s.
Proof.
  unfold hex_number, Py.len. revert acc.
  induction s as [|c s IH]; intros acc; cbn [fold_left].
  - simpl. lia.
  - rewrite IH, (IH (16 * 0 + _)).
    replace (Z.of_nat (length (c :: s))) with (Z.of_nat (length s) + 1)
      by (cbn [length]; lia).
    rewrite Z.pow_add_r by lia. lia.
Qed.

Lemma hex_number_range (s : list ascii) :
  Forall (fun c => is_hex c = true) s -> 0 <= hex_number s < 16 ^ Py.len s.
Proof.
  induction 1 as [|c s Hc _ IH].
  - cbv. split; congruence.
  - unfold hex_number. cbn [fold_left]. rewrite hex_number_acc.
    replace (Py.len (c :: s)) with (Py.len s + 1)
      by (unfold Py.len; cbn [length]; lia).
    rewrite Z.pow_add_r by (unfold Py.len; lia).
    destruct (is_hex_digit c Hc) as [_ Hr]. nia.
Qed.

Lemma range_0_40_8 : Py.range 0 40 8 = [0; 8; 16; 24; 32].
Proof. reflexivity. Qed.

Lemma Forall_firstn_skipn {A : Type} (P : A -> Prop) (n : nat) :
  forall l : list A, Forall P l -> Forall P (firstn n l) /\ Forall P (skipn n l).
Proof.
  induction n as [|n IH]; intros l H.
  - split; [constructor | exact H].
  - destruct H as [|x l Hx Hl]; cbn [firstn skipn].
    + split; constructor.
    + destruct (IH l Hl). split; [constructor|]; assumption.
Qed.

Lemma Forall_slice {A : Type} (P : A -> Prop) (l : list A) (i j : Z) :
  Forall P l -> Forall P (Py.slice l i j).
Proof.
  intros H. unfold Py.slice.
  apply Forall_firstn_skipn, Forall_firstn_skipn, H.
Qed.

Lemma slice_firstn {A : Type} (l : list A) (i j : Z) (n : nat) :
  0 <= i -> j <= Z.of_nat n -> Py.slice (firstn n l) i j = Py.slice l i j.
Proof.
  intros Hi Hj. unfold Py.slice.
  rewrite skipn_firstn_comm, firstn_firstn. f_equal. lia.
Qed.

Lemma length_slice {A : Type} (l : list A) (i j : Z) :
  0 <= i <= j -> j <= Py.len l -> length (Py.slice l i j) = Z.to_nat (j - i).
Proof.
  unfold Py.len, Py.slice. intros Hi Hj.
  rewrite length_firstn, length_skipn. lia.
Qed.

Lemma parse_state_hex (s : list ascii) :
  (40 <= length s)%nat ->
  Forall (fun c => is_hex c = true) (firstn 40 s) ->
  parse_state s = OK (hex_state s).
Proof.
  intros Hlen Hhex. unfold parse_state, hex_state. rewrite range_0_40_8.
  assert (G : forall i, In i [0; 8; 16; 24; 32] ->
                Py.int16 (Py.slice s i (i + 8)) = OK (hex_number (Py.slice s i (i + 8)))).
  { intros i Hi.
    assert (Hi' : 0 <= i /\ i + 8 <= 40) by (cbn [In] in Hi; lia).
    rewrite <- (slice_firstn s i (i + 8) 40) by lia.
    apply int16_hex.
    - intros E. apply (f_equal (@length ascii)) in E.
      rewrite length_slice in E; [cbn [length] in E; lia | lia |].
      unfold Py.len. rewrite length_firstn. lia.
    - apply Forall_slice, Hhex. }
  cbn [mapM map].
  rewrite !G by (cbn [In]; auto 10). reflexivity.
Qed.

Lemma block_loop_ok (padded : list byte) (idx : list Z) :
  forall h h', state_ok h -> block_loop padded idx h = OK h' -> state_ok h'.
Proof.
  induction idx as [|i idx IH]; intros h h' Hh H; cbn [block_loop] in H.
  - congruence.
  - destruct (Py.len _ <? 64); [congruence|].
    destruct h as [[[[h0 h1] h2] h3] h4].
    apply result_bind_ok in H as (h1' & E & H).
    eapply IH; [|exact H]. eapply sha1_process_block_word, E.
Qed.

Lemma hex_state_ok (s : list ascii) :
  Forall (fun c => is_hex c = true) (firstn 40 s) ->
  Forall word32 (hex_state s).
Proof.
  intros H. unfold hex_state. apply Forall_forall. intros x Hx.
  apply in_map_iff in Hx as (i & <- & Hi).
  assert (Hi' : 0 <= i /\ i + 8 <= 40) by (cbn [In] in Hi; lia).
  rewrite <- (slice_firstn s i (i + 8) 40) by lia.
  pose proof (hex_number_range (Py.slice (firstn 40 s) i (i + 8))
                (Forall_slice _ _ _ _ H)) as Hr.
  assert (Hl : Py.len (Py.slice (firstn 40 s) i (i + 8)) <= 8).
  { unfold Py.len, Py.slice. rewrite length_firstn. lia. }
  assert (16 ^ Py.len (Py.slice (firstn 40 s) i (i + 8)) <= 16 ^ 8)
    by (apply Z.pow_le_mono_r; [lia | exact Hl]).
  unfold word32. change (2 ^ 32) with (16 ^ 8). lia.
Qed.

(** C8: a chaining state is five words below 2^32.  Whatever its
    arguments, a state [sha1_process_block] returns is one; the state parsed
    from 40 hexadecimal digits is one; and the block loop, entered with one,
    ends with one. *)
Theorem chaining_state_invariant :
  (forall block h0 h1 h2 h3 h4 r,
      sha1_process_block block h0 h1 h2 h3 h4 = OK r -> state_ok r) /\
  (forall s,
      length s = 40%nat -> Forall (fun c => is_hex c = true) s ->
      exists h0 h1 h2 h3 h4,
        parse_state s = OK [h0; h1; h2; h3; h4] /\ state_ok (h0, h1, h2, h3, h4)) /\
  (forall padded idx h h',
      state_ok h -> block_loop padded idx h = OK h' -> state_ok h').
Proof.
  split; [|split].
  - intros block h0 h1 h2 h3 h4 r. apply sha1_process_block_word.
  - intros s Hlen Hhex.
    assert (Hf : firstn 40 s = s) by (apply firstn_all2; lia).
    pose proof (parse_state_hex s ltac:(lia) ltac:(rewrite Hf; exact Hhex)) as Hp.
    pose proof (hex_state_ok s ltac:(rewrite Hf; exact Hhex)) as Hw.
    unfold hex_state in *. cbn [map] in *.
    do 5 eexists. split; [exact Hp|].
    unfold state_ok.
    repeat match goal with
           | H : Forall _ (_ :: _) |- _ => inversion H; clear H; subst
           end.
    repeat (split; [assumption|]). assumption.
  - intros padded idx. apply block_loop_ok.
Qed.

(** The digest of the empty message, parsed, is a chaining state. *)
Lemma chaining_state_invariant_witness :
  exists h0 h1 h2 h3 h4,
    parse_state (String.list_ascii_of_string "da39a3ee5e6b4b0d3255bfef95601890afd80709"%string)
    = OK [h0; h1; h2; h3; h4] /\ state_ok (h0, h1, h2, h3, h4).
Proof.
  apply (proj1 (proj2 chaining_state_invariant)).
  - reflexivity.
  - repeat constructor.
Defined.

(** ** Digest bytes and their hexadecimal form *)

Lemma be_bytes_shift (n : nat) (v k : Z) :
  forall m : nat, (m <= n)%nat ->
    Py.be_bytes m (v + k * 256 ^ Z.of_nat n) = Py.be_bytes m v.
Proof.
  induction m as [|m IH]; intros Hm; cbn [Py.be_bytes].
  - reflexivity.
  - rewrite IH by lia. f_equal.
    apply byte.unsigned_inj. rewrite !byte.unsigned_of_Z. unfold byte.wrap.
    rewrite !Z.shiftr_div_pow2 by lia.
    replace (2 ^ (8 * Z.of_nat m)) with (256 ^ Z.of_nat m)
      by (change 256 with (2 ^ 8); rewrite <- Z.pow_mul_r by lia; reflexivity).
    replace (256 ^ Z.of_nat n)
      with (256 ^ (Z.of_nat n - Z.of_nat m - 1) * 256 * 256 ^ Z.of_nat m).
    2:{ rewrite <- (Z.pow_1_r 256) at 2. rewrite <- !Z.pow_add_r by lia.
        f_equal. lia. }
    assert (0 < 256 ^ Z.of_nat m) by (apply Z.pow_pos_nonneg; lia).
    replace (v + k * (256 ^ (Z.of_nat n - Z.of_nat m - 1) * 256 * 256 ^ Z.of_nat m))
      with (v + (k * 256 ^ (Z.of_nat n - Z.of_nat m - 1) * 256) * 256 ^ Z.of_nat m)
      by ring.
    rewrite Z.div_add by lia.
    change (2 ^ 8) with 256.
    rewrite Z.mul_comm, Z.add_comm, Z.mul_comm.
    rewrite Z.add_comm. apply Z.mod_add. lia.
Qed.

Lemma be_bytes_be_value (bs : list byte) :
  Py.be_bytes (length bs) (Py.be_value bs) = bs.
Proof.
  induction bs as [|b bs IH]; cbn [length Py.be_bytes].
  - reflexivity.
  - rewrite be_value_cons. unfold Py.len.
    pose proof (be_value_range bs) as Hr. unfold Py.len in Hr.
    replace (byte.unsigned b * 256 ^ Z.of_nat (length bs) + Py.be_value bs)
      with (Py.be_value bs + byte.unsigned b * 256 ^ Z.of_nat (length bs)) by lia.
    rewrite be_bytes_shift by lia. rewrite IH. f_equal.
    rewrite Z.shiftr_div_pow2 by lia.
    replace (2 ^ (8 * Z.of_nat (length bs))) with (256 ^ Z.of_nat (length bs))
      by (change 256 with (2 ^ 8); rewrite <- Z.pow_mul_r by lia; reflexivity).
    rewrite Z.div_add by lia. rewrite Z.div_small by lia.
    cbn [Z.add]. apply byte.of_Z_unsigned.
Qed.

Lemma be_value_fromhex_acc (n : nat) :
  forall (ds : list ascii) (acc : Z),
    length ds = (2 * n)%nat -> Forall (fun c => is_hex c = true) ds ->
    fold_left (fun a b => a * 256 + byte.unsigned b) (fromhex ds) acc
    = fold_left (fun a c => 16 * a + hex_val c) ds acc.
Proof.
  induction n as [|n IH]; intros ds acc Hlen Hhex.
  - destruct ds; [reflexivity | discriminate].
  - destruct ds as [|c1 [|c2 ds]]; try (cbn [length] in Hlen; lia).
    cbn [fromhex fold_left].
    pose proof (Forall_inv Hhex) as H1.
    pose proof (Forall_inv (Forall_inv_tail Hhex)) as H2.
    destruct (is_hex_digit c1 H1) as [_ R1]. destruct (is_hex_digit c2 H2) as [_ R2].
    rewrite byte.unsigned_of_Z. unfold byte.wrap. change (2 ^ 8) with 256.
    rewrite Z.mod_small by lia.
    rewrite IH.
    + f_equal. lia.
    + cbn [length] in Hlen. lia.
    + apply Forall_inv_tail, Forall_inv_tail in Hhex. exact Hhex.
Qed.

Lemma length_fromhex (n : nat) :
  forall ds : list ascii, length ds = (2 * n)%nat -> length (fromhex ds) = n.
Proof.
  induction n as [|n IH]; intros ds Hlen.
  - destruct ds; [reflexivity | discriminate].
  - destruct ds as [|c1 [|c2 ds]]; try (cbn [length] in Hlen; lia).
    cbn [fromhex length]. f_equal. apply IH. cbn [length] in Hlen. lia.
Qed.

(** The [n] big-endian bytes of the number [2n] hexadecimal digits denote
    are the bytes the digits spell. *)
Lemma be_bytes_hex_number (n : nat) (ds : list ascii) :
  length ds = (2 * n)%nat -> Forall (fun c => is_hex c = true) ds ->
  Py.be_bytes n (hex_number ds) = fromhex ds.
Proof.
  intros Hlen Hhex.
  rewrite <- (length_fromhex n ds Hlen) at 1.
  unfold hex_number. rewrite <- (be_value_fromhex_acc n) by assumption.
  apply be_bytes_be_value.
Qed.

Lemma fromhex_groups (s : list ascii) :
  length s = 40%nat ->
  fromhex s = flat_map (fun i => fromhex (Py.slice s i (i + 8))) [0; 8; 16; 24; 32].
Proof.
  intros H.
  do 40 (destruct s as [|? s]; [discriminate|]).
  destruct s; [|discriminate]. reflexivity.
Qed.

Lemma pack_5I_state (h0 h1 h2 h3 h4 : Z) :
  state_ok (h0, h1, h2, h3, h4) ->
  Py.pack_5I h0 h1 h2 h3 h4 = OK (state_bytes (h0, h1, h2, h3, h4)).
Proof.
  unfold state_ok, word32, Py.pack_5I, Py.fits. intros (H0 & H1 & H2 & H3 & H4).
  cbn [forallb state_bytes].
  repeat match goal with
         | |- context [0 <=? ?x] =>
             replace (0 <=? x) with true by (symmetry; apply Z.leb_le; lia)
         | |- context [?x <? 2 ^ 32] =>
             replace (x <? 2 ^ 32) with true by (symmetry; apply Z.ltb_lt; lia)
         end.
  reflexivity.
Qed.

(** C9: for a digest of 40 hexadecimal digits, the words [sha1_extend]
    parses, packed again with [struct.pack('>5I', ...)], are the 20 bytes the
    digits spell. *)
Theorem parse_state_pack_identity (s : list ascii) :
  length s = 40%nat -> Forall (fun c => is_hex c = true) s ->
  exists h0 h1 h2 h3 h4,
    parse_state s = OK [h0; h1; h2; h3; h4] /\
    Py.pack_5I h0 h1 h2 h3 h4 = OK (fromhex s).
Proof.
  intros Hlen Hhex.
  assert (Hf : firstn 40 s = s) by (apply firstn_all2; lia).
  pose proof (parse_state_hex s ltac:(lia) ltac:(rewrite Hf; exact Hhex)) as Hp.
  pose proof (hex_state_ok s ltac:(rewrite Hf; exact Hhex)) as Hw.
  rewrite (fromhex_groups s Hlen).
  unfold hex_state in *. cbn [map] in *.
  do 5 eexists. split; [exact Hp|].
  rewrite pack_5I_state.
  - cbn [state_bytes flat_map].
    rewrite !(be_bytes_hex_number 4);
      try (apply Forall_slice; exact Hhex);
      try (rewrite length_slice; unfold Py.len; lia).
    reflexivity.
  - unfold state_ok.
    repeat match goal with
           | H : Forall _ (_ :: _) |- _ => inversion H; clear H; subst
           end.
    repeat (split; [assumption|]). assumption.
Qed.

(** The digest of the empty message, parsed and packed again. *)
Lemma parse_state_pack_identity_witness :
  exists h0 h1 h2 h3 h4,
    parse_state (String.list_ascii_of_string "da39a3ee5e6b4b0d3255bfef95601890afd80709"%string)
    = OK [h0; h1; h2; h3; h4] /\
    Py.pack_5I h0 h1 h2 h3 h4
    = OK (fromhex (String.list_ascii_of_string "da39a3ee5e6b4b0d3255bfef95601890afd80709"%string)).
Proof.
  apply parse_state_pack_identity.
  - reflexivity.
  - repeat constructor.
Defined.

(** ** What the parsing of the digest accepts and refuses *)










Lemma int16_raises_ValueError (s : list ascii) (e : exn) :
  Py.int16 s = Raise e -> e = ValueError.
Proof.
  unfold Py.int16. destruct (Py.strip_sign _) as [sign t].
  destruct (Py.strip_prefix t) as [|c t']; [congruence|].
  destruct (Py.is_underscore c); [congruence|].
  destruct (Py.scan_digits _ _ _) as [[v rest]|]; [|congruence].
  destruct (_ =? _)%nat; [congruence|].
  destruct (Py.skip_spaces rest); congruence.
Qed.



Lemma mapM_raise {A B : Type} (f : A -> result B) (l : list A) (e : exn) :
  mapM f l = Raise e -> exists x, In x l /\ f x = Raise e.
Proof.
  induction l as [|a l IH]; cbn [mapM]; [discriminate|].
  destruct (f a) as [y|e'] eqn:Ea; cbn [bind].
  - destruct (mapM f l) as [ys|e'] eqn:El; cbn [bind]; [discriminate|].
    intros H. injection H as ->. destruct (IH eq_refl) as (x & Hx & E).
    exists x. split; [right; exact Hx | exact E].
  - intros H. injection H as ->. exists a. split; [left; reflexivity | exact Ea].
Qed.





Lemma parse_state_firstn (s : list ascii) : parse_state (firstn 40 s) = parse_state s.
Proof.
  unfold parse_state. rewrite range_0_40_8. cbn [mapM].
  rewrite !slice_firstn by lia. reflexivity.
Qed.




(** ** Continuing a hash *)

Lemma nat_div_64 (l : nat) : Z.of_nat l mod 64 = 0 -> l = (64 * (l / 64))%nat.
Proof.
  intros H. pose proof (Nat.div_mod_eq l 64) as Hdm.
  pose proof (Nat.mod_upper_bound l 64 ltac:(lia)) as Hr.
  set (q := (l / 64)%nat) in *. set (r := (l mod 64)%nat) in *.
  rewrite Hdm in H. Z.div_mod_to_equations. lia.
Qed.

Lemma nat_div_64_ceil (l : nat) :
  Z.of_nat l mod 64 = 0 -> ((l + 63) / 64 = l / 64)%nat.
Proof.
  intros H. apply nat_div_64 in H. set (q := (l / 64)%nat) in *.
  rewrite H at 1. symmetry. apply (Nat.div_unique _ 64 q 63); lia.
Qed.

Lemma blocks_slices (l : list byte) (m : nat) :
  forall j : nat,
    map (fun i => Py.slice l i (i + 64)) (map (fun k => 64 * Z.of_nat k) (seq j m))
    = blocks m (skipn (64 * j) l).
Proof.
  induction m as [|m IH]; intros j; cbn [seq map blocks].
  - reflexivity.
  - rewrite slice_block, IH, skipn_skipn.
    replace (64 + 64 * j)%nat with (64 * S j)%nat by lia. reflexivity.
Qed.

(** On a byte string of whole blocks the indices of the loop cut exactly
    its blocks. *)
Lemma range_slices (l : list byte) :
  Py.len l mod 64 = 0 ->
  map (fun i => Py.slice l i (i + 64)) (Py.range 0 (Py.len l) 64)
  = blocks (length l / 64) l.
Proof.
  intros H. unfold Py.len in *. rewrite range_0_64.
  replace (Z.to_nat ((Z.of_nat (length l) + 63) / 64)) with (length l / 64)%nat.
  - apply (blocks_slices l _ 0).
  - rewrite <- (nat_div_64_ceil _ H).
    rewrite <- (Nat2Z.id ((length l + 63) / 64)). f_equal.
    rewrite Nat2Z.inj_div. f_equal. lia.
Qed.

Lemma sha1_extend_hash_run (h0 h1 h2 h3 h4 : Z) (data : list byte)
  (previous_length : Z) (tail : list byte) :
  sha1_padding (previous_length + Py.len data) = OK tail ->
  sha1_extend_hash [h0; h1; h2; h3; h4] data previous_length
  = (h <- fold_blocks (blocks (length (data ++ tail) / 64) (data ++ tail))
            (h0, h1, h2, h3, h4) ;;
     let '(h0, h1, h2, h3, h4) := h in Py.pack_5I h0 h1 h2 h3 h4).
Proof.
  intros H. unfold sha1_extend_hash. rewrite H. cbn [bind].
  rewrite block_loop_range. reflexivity.
Qed.

Lemma length_state_bytes (h : state) : length (state_bytes h) = 20%nat.
Proof.
  destruct h as [[[[h0 h1] h2] h3] h4]. cbn [state_bytes flat_map].
  rewrite !length_app, !length_be_bytes. reflexivity.
Qed.

Lemma len_app {A : Type} (l1 l2 : list A) : Py.len (l1 ++ l2) = Py.len l1 + Py.len l2.
Proof. unfold Py.len. rewrite length_app. lia. Qed.

(** C10: when [previous_length] is no multiple of 64, [data] and its
    padding end in a fragment of 1 to 63 bytes; [sha1_extend_hash] raises
    nothing and returns the 20 bytes of the state reached by compressing the
    full blocks before the fragment. *)
Theorem sha1_extend_hash_drops_fragment (h0 h1 h2 h3 h4 : Z) (data : list byte)
  (previous_length : Z) (tail : list byte) :
  state_ok (h0, h1, h2, h3, h4) ->
  previous_length mod 64 <> 0 ->
  sha1_padding (previous_length + Py.len data) = OK tail ->
  let padded_data := data ++ tail in
  let n := (length padded_data / 64)%nat in
  (0 < length (skipn (64 * n) padded_data) < 64)%nat /\
  exists st,
    fold_blocks (blocks n padded_data) (h0, h1, h2, h3, h4) = OK st /\
    sha1_extend_hash [h0; h1; h2; h3; h4] data previous_length = OK (state_bytes st) /\
    length (state_bytes st) = 20%nat.
Proof.
  intros Hh Hprev Hpad padded_data n.
  destruct (sha1_padding_len _ _ Hpad) as [_ Hmod].
  pose proof (Nat.div_mod_eq (length padded_data) 64) as Hdm.
  pose proof (Nat.mod_upper_bound (length padded_data) 64 ltac:(lia)) as Hr.
  fold n in Hdm. set (r := (length padded_data mod 64)%nat) in *.
  assert (Hlen : Py.len padded_data = Py.len data + Py.len tail) by apply len_app.
  unfold Py.len in *.
  split.
  - rewrite length_skipn. Z.div_mod_to_equations. lia.
  - destruct (fold_blocks_full (blocks n padded_data)
                (blocks_full n padded_data ltac:(lia)) (h0, h1, h2, h3, h4))
      as (st & E & _).
    exists st. split; [exact E|]. split; [|apply length_state_bytes].
    rewrite (sha1_extend_hash_run _ _ _ _ _ _ _ _ Hpad).
    fold padded_data. fold n. rewrite E. cbn [bind].
    pose proof (fold_blocks_ok _ _ _ Hh E) as Hst.
    destruct st as [[[[a b] c] d] e]. apply pack_5I_state, Hst.
Qed.

(** Three bytes continued after 5 bytes: the 59 bytes of data and padding
    are all dropped and the digest is the initial state. *)
Lemma sha1_extend_hash_drops_fragment_witness :
  let padded_data :=
    [Byte.x61; Byte.x62; Byte.x63; Byte.x80] ++ repeat Byte.x00 47
      ++ Py.be_bytes 8 64 in
  (0 < length (skipn (64 * (length padded_data / 64)) padded_data) < 64)%nat /\
  exists st,
    fold_blocks (blocks (length padded_data / 64) padded_data) (1, 2, 3, 4, 5) = OK st /\
    sha1_extend_hash [1; 2; 3; 4; 5] [Byte.x61; Byte.x62; Byte.x63] 5 = OK (state_bytes st) /\
    length (state_bytes st) = 20%nat.
Proof.
  apply (sha1_extend_hash_drops_fragment 1 2 3 4 5 [Byte.x61; Byte.x62; Byte.x63] 5).
  - unfold state_ok, word32. lia.
  - vm_compute. discriminate.
  - reflexivity.
Defined.

(** ** The forgery *)

Lemma padded_blocks (previous_length : Z) (data tail : list byte) :
  previous_length mod 64 = 0 ->
  sha1_padding (previous_length + Py.len data) = OK tail ->
  Py.len (data ++ tail) mod 64 = 0 /\ (1 <= length (data ++ tail) / 64)%nat.
Proof.
  intros Hprev Hpad. destruct (sha1_padding_len _ _ Hpad) as [Hlen Hmod].
  assert (H0 : Py.len (data ++ tail) mod 64 = 0).
  { rewrite len_app. Z.div_mod_to_equations. lia. }
  split; [exact H0|].
  pose proof (nat_div_64 _ H0) as Hq.
  assert (0 <= (56 - (previous_length + Py.len data + 1) mod 64) mod 64)
    by (apply Z.mod_pos_bound; lia).
  assert (9 <= Py.len (data ++ tail)) by (rewrite len_app; unfold Py.len in *; lia).
  unfold Py.len in *. set (q := (length (data ++ tail) / 64)%nat) in *. lia.
Qed.

(** What a call of [sha1_extend] does once the digest is parsed and both
    paddings exist: it compresses every block of [append_data] and its
    padding, starting from the parsed state. *)
Lemma sha1_extend_run (hex : list ascii) (K A : list byte) (n : Z)
  (h0 h1 h2 h3 h4 : Z) (p tail : list byte) :
  parse_state hex = OK [h0; h1; h2; h3; h4] ->
  sha1_padding (n + Py.len K) = OK p ->
  sha1_padding (n + Py.len K + Py.len p + Py.len A) = OK tail ->
  exists st,
    fold_blocks (blocks (length (A ++ tail) / 64) (A ++ tail)) (h0, h1, h2, h3, h4)
    = OK st /\
    state_ok st /\
    sha1_extend hex K A n = OK (Py.hex (state_bytes st), K ++ p ++ A).
Proof.
  intros Hparse Hp Htail.
  destruct (sha1_padding_len _ _ Hp) as [_ Hprev].
  destruct (padded_blocks _ _ _ Hprev Htail) as [Hmod Hq].
  pose proof (nat_div_64 _ Hmod) as Hlen.
  set (m := (length (A ++ tail) / 64)%nat) in *.
  destruct (fold_blocks_full (blocks m (A ++ tail))
              (blocks_full m (A ++ tail) ltac:(lia)) (h0, h1, h2, h3, h4))
    as (st & E & Hst).
  assert (Hok : state_ok st).
  { apply Hst. destruct m; [lia | discriminate]. }
  exists st. split; [exact E|]. split; [exact Hok|].
  unfold sha1_extend. rewrite Hparse. cbn [bind]. rewrite Hp. cbn [bind].
  rewrite (sha1_extend_hash_run _ _ _ _ _ _ _ _ Htail). fold m. rewrite E. cbn [bind].
  destruct st as [[[[a b] c] d] e]. rewrite (pack_5I_state _ _ _ _ _ Hok).
  reflexivity.
Qed.

(** C5: in [sha1_extend] the [previous_length] given to [sha1_extend_hash]
    is a multiple of 64, so [append_data] and its padding are a whole number
    of blocks: every slice the loop takes has 64 bytes (the break is never
    taken), the slices together are all of the padded data, and the digest
    returned is the state reached by compressing all of them. *)
Theorem sha1_extend_blocks_aligned (K A : list byte) (n : Z) (p : list byte) :
  sha1_padding (n + Py.len K) = OK p ->
  let previous_length := n + Py.len K + Py.len p in
  previous_length mod 64 = 0 /\
  forall tail,
    sha1_padding (previous_length + Py.len A) = OK tail ->
    let padded_data := A ++ tail in
    let idx := Py.range 0 (Py.len padded_data) 64 in
    let slices := map (fun i => Py.slice padded_data i (i + 64)) idx in
    Py.len padded_data mod 64 = 0 /\
    Forall (fun block => Py.len block = 64) slices /\
    concat slices = padded_data /\
    forall hex h0 h1 h2 h3 h4,
      parse_state hex = OK [h0; h1; h2; h3; h4] ->
      exists st,
        fold_blocks slices (h0, h1, h2, h3, h4) = OK st /\
        sha1_extend hex K A n = OK (Py.hex (state_bytes st), K ++ p ++ A).
Proof.
  intros Hp previous_length.
  destruct (sha1_padding_len _ _ Hp) as [_ Hprev].
  split; [exact Hprev|].
  intros tail Htail padded_data idx slices.
  destruct (padded_blocks _ _ _ Hprev Htail) as [Hmod Hq].
  pose proof (nat_div_64 _ Hmod) as Hlen.
  subst slices idx padded_data.
  rewrite (range_slices _ Hmod). set (m := (length (A ++ tail) / 64)%nat) in *.
  split; [exact Hmod|].
  split.
  { eapply Forall_impl; [|apply blocks_full; lia].
    intros b Hb. unfold Py.len. rewrite Hb. reflexivity. }
  split.
  { rewrite blocks_concat, <- Hlen. apply firstn_all. }
  intros hex h0 h1 h2 h3 h4 Hparse.
  destruct (sha1_extend_run hex K A n h0 h1 h2 h3 h4 p tail Hparse Hp Htail)
    as (st & E & _ & Hrun).
  exists st. split; assumption.
Qed.

(** The scenario of the module's demonstration: the suffix A|5 after a
    secret of 8 bytes, extended by |1000000000. *)
Lemma sha1_extend_blocks_aligned_witness :
  let K := String.list_byte_of_string "A|5"%string in
  let A := String.list_byte_of_string "|1000000000"%string in
  let p := [Byte.x80] ++ repeat Byte.x00 44 ++ Py.be_bytes 8 88 in
  let previous_length := 8 + Py.len K + Py.len p in
  previous_length mod 64 = 0 /\
  forall tail,
    sha1_padding (previous_length + Py.len A) = OK tail ->
    let padded_data := A ++ tail in
    let idx := Py.range 0 (Py.len padded_data) 64 in
    let slices := map (fun i => Py.slice padded_data i (i + 64)) idx in
    Py.len padded_data mod 64 = 0 /\
    Forall (fun block => Py.len block = 64) slices /\
    concat slices = padded_data /\
    forall hex h0 h1 h2 h3 h4,
      parse_state hex = OK [h0; h1; h2; h3; h4] ->
      exists st,
        fold_blocks slices (h0, h1, h2, h3, h4) = OK st /\
        sha1_extend hex K A 8 = OK (Py.hex (state_bytes st), K ++ p ++ A).
Proof.
  apply (sha1_extend_blocks_aligned
           (String.list_byte_of_string "A|5"%string)
           (String.list_byte_of_string "|1000000000"%string) 8).
  reflexivity.
Defined.

(** C4: the second component of what [sha1_extend] returns is the known
    suffix, the padding of [secret_length + len(original_data)], and the
    appended bytes; and [sha1_extend] does return on a digest of 40
    hexadecimal digits when the bit lengths fit 64 bits. *)
Theorem sha1_extend_forged_suffix (hex : list ascii) (K A : list byte) (n : Z) :
  (forall d s,
      sha1_extend hex K A n = OK (d, s) ->
      exists p, sha1_padding (n + Py.len K) = OK p /\ s = K ++ p ++ A) /\
  (length hex = 40%nat -> Forall (fun c => is_hex c = true) hex ->
   0 <= n + Py.len K -> (n + Py.len K + 72 + Py.len A) * 8 < 2 ^ 64 ->
   exists d p,
     sha1_padding (n + Py.len K) = OK p /\
     sha1_extend hex K A n = OK (d, K ++ p ++ A)).
Proof.
  split.
  - intros d s H. unfold sha1_extend in H.
    apply result_bind_ok in H as (h & _ & H).
    apply result_bind_ok in H as (p & Hp & H).
    apply result_bind_ok in H as (new_hash & _ & H).
    exists p. split; [exact Hp | congruence].
  - intros Hlen Hhex Hn Hbits.
    pose proof (Z.le_0_sub 0 (Py.len A)) as _.
    assert (HA : 0 <= Py.len A) by (unfold Py.len; lia).
    assert (Hf : firstn 40 hex = hex) by (apply firstn_all2; lia).
    pose proof (parse_state_hex hex ltac:(lia) ltac:(rewrite Hf; exact Hhex)) as Hparse.
    unfold hex_state in Hparse. cbn [map] in Hparse.
    pose proof (sha1_padding_ok (n + Py.len K) Hn ltac:(lia)) as Hp.
    set (p := [Byte.x80] ++ _) in Hp.
    destruct (sha1_padding_len _ _ Hp) as [Hplen _].
    assert (0 <= (56 - (n + Py.len K + 1) mod 64) mod 64 < 64)
      by (apply Z.mod_pos_bound; lia).
    pose proof (sha1_padding_ok (n + Py.len K + Py.len p + Py.len A)
                  ltac:(lia) ltac:(lia)) as Htail.
    destruct (sha1_extend_run hex K A n _ _ _ _ _ p _ Hparse Hp Htail)
      as (st & _ & _ & Hrun).
    exists (Py.hex (state_bytes st)), p. split; [exact Hp | exact Hrun].
Qed.

(** The demonstration's call on the digest of mysecretA|5. *)
Lemma sha1_extend_forged_suffix_witness :
  exists d p,
    sha1_padding (8 + 3) = OK p /\
    sha1_extend
      (String.list_ascii_of_string "fc2a81bbc8232906a77d3f9858a38371ae776861"%string)
      (String.list_byte_of_string "A|5"%string)
      (String.list_byte_of_string "|1000000000"%string) 8
    = OK (d, String.list_byte_of_string "A|5"%string ++ p
             ++ String.list_byte_of_string "|1000000000"%string).
Proof.
  apply (proj2 (sha1_extend_forged_suffix
                  (String.list_ascii_of_string "fc2a81bbc8232906a77d3f9858a38371ae776861"%string)
                  (String.list_byte_of_string "A|5"%string)
                  (String.list_byte_of_string "|1000000000"%string) 8)).
  - reflexivity.
  - repeat constructor.
  - vm_compute. discriminate.
  - vm_compute. reflexivity.
Defined.

Lemma hex_char_spec (x : Z) :
  0 <= x < 16 -> is_hex (Py.hex_char x) = true /\ hex_val (Py.hex_char x) = x.
Proof.
  intros H.
  assert (C : x = 0 \/ x = 1 \/ x = 2 \/ x = 3 \/ x = 4 \/ x = 5 \/ x = 6 \/ x = 7 \/
              x = 8 \/ x = 9 \/ x = 10 \/ x = 11 \/ x = 12 \/ x = 13 \/ x = 14 \/ x = 15)
    by lia.
  repeat (destruct C as [->|C]; [split; reflexivity|]).
  subst x. split; reflexivity.
Qed.

Lemma byte_nibbles (b : byte) :
  0 <= byte.unsigned b / 16 < 16 /\ 0 <= byte.unsigned b mod 16 < 16 /\
  16 * (byte.unsigned b / 16) + byte.unsigned b mod 16 = byte.unsigned b.
Proof.
  pose proof (byte.unsigned_range b) as H. change (2 ^ 8) with 256 in H.
  Z.div_mod_to_equations. lia.
Qed.

Lemma hex_is_hex (bs : list byte) : Forall (fun c => is_hex c = true) (Py.hex bs).
Proof.
  induction bs as [|b bs IH]; cbn [Py.hex flat_map app]; [constructor|].
  destruct (byte_nibbles b) as (Hh & Hl & _).
  constructor; [apply hex_char_spec, Hh|].
  constructor; [apply hex_char_spec, Hl | exact IH].
Qed.

Lemma hex_number_hex_acc (bs : list byte) :
  forall acc,
    fold_left (fun a c => 16 * a + hex_val c) (Py.hex bs) acc
    = fold_left (fun a b => a * 256 + byte.unsigned b) bs acc.
Proof.
  induction bs as [|b bs IH]; intros acc; cbn [Py.hex flat_map app fold_left].
  - reflexivity.
  - destruct (byte_nibbles b) as (Hh & Hl & Hb).
    rewrite (proj2 (hex_char_spec _ Hh)), (proj2 (hex_char_spec _ Hl)).
    fold (Py.hex bs). rewrite IH. f_equal. lia.
Qed.

Lemma hex_number_hex (bs : list byte) : hex_number (Py.hex bs) = Py.be_value bs.
Proof. apply hex_number_hex_acc. Qed.

Lemma length_hex (bs : list byte) : length (Py.hex bs) = (2 * length bs)%nat.
Proof.
  induction bs as [|b bs IH]; cbn [Py.hex flat_map app length]; [reflexivity|].
  fold (Py.hex bs). rewrite IH. lia.
Qed.

Lemma hex_state_hex (h0 h1 h2 h3 h4 : Z) :
  hex_state (Py.hex (state_bytes (h0, h1, h2, h3, h4)))
  = map (fun h => hex_number (Py.hex (Py.be_bytes 4 h))) [h0; h1; h2; h3; h4].
Proof. reflexivity. Qed.

(** The hexadecimal digest of a state parses back to the state. *)
Lemma parse_state_hex_digest (h0 h1 h2 h3 h4 : Z) :
  state_ok (h0, h1, h2, h3, h4) ->
  parse_state (Py.hex (state_bytes (h0, h1, h2, h3, h4))) = OK [h0; h1; h2; h3; h4].
Proof.
  intros (H0 & H1 & H2 & H3 & H4). unfold word32 in *.
  rewrite parse_state_hex.
  - rewrite hex_state_hex. cbn [map]. rewrite !hex_number_hex.
    rewrite !be_value_be_bytes by (change (256 ^ Z.of_nat 4) with (2 ^ 32); lia).
    reflexivity.
  - rewrite length_hex, length_state_bytes. lia.
  - apply Forall_firstn_skipn, hex_is_hex.
Qed.

Lemma blocks_prefix (n : nat) :
  forall l l' : list byte, (64 * n <= length l)%nat -> blocks n (l ++ l') = blocks n l.
Proof.
  induction n as [|n IH]; intros l l' H; cbn [blocks].
  - reflexivity.
  - rewrite firstn_app, skipn_app.
    replace (64 - length l)%nat with 0%nat by lia.
    rewrite firstn_0, skipn_0, app_nil_r.
    rewrite IH by (rewrite length_skipn; lia). reflexivity.
Qed.

(** The digest of a message whose padding exists is the state reached over
    all the blocks of message and padding. *)
Lemma digest_run (M p : list byte) :
  sha1_padding (Py.len M) = OK p ->
  exists st,
    fold_blocks (blocks (length (M ++ p) / 64) (M ++ p)) IV = OK st /\
    state_ok st /\
    digest M = OK (state_bytes st).
Proof.
  intros Hp.
  assert (Hp' : sha1_padding (0 + Py.len M) = OK p) by exact Hp.
  destruct (padded_blocks 0 M p eq_refl Hp') as [Hmod Hq].
  pose proof (nat_div_64 _ Hmod) as Hlen.
  pose proof (nat_div_64_ceil _ Hmod) as Hceil.
  set (m := (length (M ++ p) / 64)%nat) in *.
  destruct (fold_blocks_full (blocks m (M ++ p))
              (blocks_full m (M ++ p) ltac:(lia)) IV) as (st & E & Hst).
  assert (Hok : state_ok st).
  { apply Hst. destruct m; [lia | discriminate]. }
  exists st. split; [exact E|]. split; [exact Hok|].
  unfold digest. rewrite Hp. cbn [bind]. rewrite Hceil, E. cbn [bind].
  destruct st as [[[[a b] c] d] e]. apply pack_5I_state, Hok.
Qed.

(** Continuation: on the hexadecimal form of what the digest engine gives
    for [S + K], [sha1_extend] returns the hexadecimal form of what the
    engine gives for [S + K + padding + A]. *)
Lemma sha1_extend_continues_digest (S K A p : list byte) :
  sha1_padding (Py.len S + Py.len K) = OK p ->
  (Py.len S + Py.len K + Py.len p + Py.len A) * 8 < 2 ^ 64 ->
  exists d0 d,
    digest (S ++ K) = OK d0 /\
    digest (S ++ K ++ p ++ A) = OK d /\
    sha1_extend (Py.hex d0) K A (Py.len S) = OK (Py.hex d, K ++ p ++ A).
Proof.
  intros Hp Hbits.
  assert (Hp0 : sha1_padding (Py.len (S ++ K)) = OK p) by (rewrite len_app; exact Hp).
  destruct (digest_run (S ++ K) p Hp0) as (st1 & E1 & Hok1 & Hd0).
  destruct (sha1_padding_len _ _ Hp) as [_ Hprev].
  assert (Hnn : 0 <= Py.len S + Py.len K + Py.len p + Py.len A)
    by (unfold Py.len; lia).
  pose proof (sha1_padding_ok _ Hnn Hbits) as Htail.
  set (tail := [Byte.x80] ++ _) in Htail.
  destruct st1 as [[[[a b] c] d] e].
  destruct (sha1_extend_run (Py.hex (state_bytes (a, b, c, d, e))) K A (Py.len S)
              a b c d e p tail (parse_state_hex_digest _ _ _ _ _ Hok1) Hp Htail)
    as (st2 & E2 & Hok2 & Hrun).
  exists (state_bytes (a, b, c, d, e)), (state_bytes st2).
  split; [exact Hd0|]. split; [|exact Hrun].
  assert (HpM : sha1_padding (Py.len (S ++ K ++ p ++ A)) = OK tail).
  { rewrite !len_app. rewrite <- Htail. f_equal. lia. }
  destruct (digest_run _ _ HpM) as (st & E & _ & Hd).
  rewrite Hd. do 2 f_equal.
  assert (Hs : OK st = OK st2); [|congruence].
  rewrite <- E, <- E2.
  replace ((S ++ K ++ p ++ A) ++ tail) with (((S ++ K) ++ p) ++ (A ++ tail))
    by (rewrite <- !app_assoc; reflexivity).
  assert (H0 : Py.len ((S ++ K) ++ p) mod 64 = 0)
    by (rewrite !len_app; exact Hprev).
  destruct (padded_blocks _ A tail Hprev Htail) as [H1 _].
  pose proof (nat_div_64 _ H0) as L0. pose proof (nat_div_64 _ H1) as L1.
  set (m0 := (length ((S ++ K) ++ p) / 64)%nat) in *.
  set (m1 := (length (A ++ tail) / 64)%nat) in *.
  replace (length (((S ++ K) ++ p) ++ A ++ tail) / 64)%nat with (m0 + m1)%nat.
  2:{ rewrite length_app, L0, L1.
      replace (64 * m0 + 64 * m1)%nat with ((m0 + m1) * 64)%nat by lia.
      rewrite Nat.div_mul by lia. reflexivity. }
  rewrite blocks_app, fold_blocks_app.
  rewrite blocks_prefix by lia. rewrite E1. cbn [bind].
  replace (64 * m0)%nat with (length ((S ++ K) ++ p)) by exact L0.
  rewrite skipn_app, skipn_all, Nat.sub_diag. reflexivity.
Qed.

(** ** The compression function is the standard one *)

Lemma word32_land_ones (x : Z) : word32 x -> Z.land x (Z.ones 32) = x.
Proof. intros H. rewrite Z.land_ones by lia. apply Z.mod_small, H. Qed.

Lemma word32_lxor (x y : Z) : word32 x -> word32 y -> word32 (Z.lxor x y).
Proof.
  intros Hx Hy.
  replace (Z.lxor x y) with (Z.land (Z.lxor x y) 0xffffffff); [apply mask32_word|].
  change 0xffffffff with (Z.ones 32).
  rewrite <- (word32_land_ones x Hx), <- (word32_land_ones y Hy). Z.bitblast.
Qed.

Lemma left_rotate_word (x n : Z) : word32 (_left_rotate x n).
Proof. apply mask32_word. Qed.

Lemma left_rotate_rotl (x n : Z) :
  word32 x -> 0 < n < 32 -> _left_rotate x n = Standard.rotl x n.
Proof.
  intros Hx Hn. unfold _left_rotate, Standard.rotl. cbv zeta.
  change 0xffffffff with (Z.ones 32).
  rewrite (word32_land_ones x Hx), Z.land_lor_distr_l, Z.or_to_plus.
  - rewrite !Z.land_ones by lia.
    rewrite Z.shiftl_mul_pow2, Z.shiftr_div_pow2 by lia.
    f_equal. apply Z.mod_small. unfold word32 in Hx.
    assert (0 < 2 ^ (32 - n)) by (apply Z.pow_pos_nonneg; lia).
    split; [apply Z.div_pos; lia|].
    apply Z.div_lt_upper_bound; [lia|]. nia.
  - rewrite <- (word32_land_ones x Hx). Z.bitblast.
Qed.

Lemma choose_Ch (b c d : Z) :
  word32 b -> word32 d ->
  Z.lor (Z.land b c) (Z.land (Z.lnot b) d) = Standard.Ch b c d.
Proof.
  intros Hb Hd. unfold Standard.Ch.
  assert (E : Standard.not32 b = Z.land (Z.lnot b) (Z.ones 32)).
  { rewrite Z.land_ones by lia. unfold Standard.not32, Z.lnot, word32 in *.
    apply (Z.mod_unique_pos _ _ (-1)); lia. }
  rewrite E, <- (word32_land_ones d Hd). Z.bitblast.
Qed.

Lemma majority_Maj (b c d : Z) :
  Z.lor (Z.lor (Z.land b c) (Z.land b d)) (Z.land c d) = Standard.Maj b c d.
Proof. unfold Standard.Maj. Z.bitblast. Qed.

Lemma be_words_word32 (n : nat) :
  forall bs : list byte, Forall word32 (Py.be_words n bs).
Proof.
  induction n as [|n IH]; intros bs; cbn [Py.be_words]; constructor; [|apply IH].
  pose proof (be_value_range (firstn 4 bs)) as Hr.
  assert (Hl : Py.len (firstn 4 bs) <= 4)
    by (unfold Py.len; rewrite length_firstn; lia).
  assert (256 ^ Py.len (firstn 4 bs) <= 256 ^ 4)
    by (apply Z.pow_le_mono_r; [lia | exact Hl]).
  unfold word32. change (2 ^ 32) with (256 ^ 4). lia.
Qed.

Lemma be_words_standard (n : nat) :
  forall block : list byte,
    length block = (4 * n)%nat -> Py.be_words n block = Standard.words block.
Proof.
  induction n as [|n IH]; intros block H.
  - destruct block; [reflexivity | discriminate].
  - destruct block as [|b0 [|b1 [|b2 [|b3 block]]]]; try (cbn [length] in H; lia).
    cbn [Py.be_words Standard.words firstn skipn]. unfold Py.be_value. cbn [fold_left].
    rewrite IH by (cbn [length] in H; lia). f_equal. lia.
Qed.

Lemma length_be_words (n : nat) : forall bs : list byte, length (Py.be_words n bs) = n.
Proof. induction n as [|n IH]; intros bs; cbn [Py.be_words length]; congruence. Qed.

Lemma set_nth_app (l l' : list Z) (y x : Z) :
  Py.set_nth (l ++ y :: l') (length l) x = l ++ x :: l'.
Proof. induction l as [|a l IH]; cbn [app length Py.set_nth]; congruence. Qed.

Lemma word32_nth (l : list Z) (i : nat) : Forall word32 l -> word32 (nth i l 0).
Proof.
  intros H. destruct (Nat.lt_ge_cases i (length l)) as [Hi|Hi].
  - rewrite Forall_forall in H. apply H, nth_In, Hi.
  - rewrite nth_overflow by exact Hi. unfold word32. lia.
Qed.

(** The schedule loop, run for its first [n] indices, has written the
    first [16 + n] words of the standard schedule in front of the zeros that
    are left. *)
Lemma schedule_loop (ws : list Z) :
  length ws = 16%nat -> Forall word32 ws ->
  forall n : nat, (n <= 64)%nat ->
    fold_left schedule_step (map Z.of_nat (seq 16 n)) (ws ++ repeat 0 64)
    = Standard.schedule ws n ++ repeat 0 (64 - n) /\
    length (Standard.schedule ws n) = (16 + n)%nat /\
    Forall word32 (Standard.schedule ws n).
Proof.
  intros Hlen Hws. induction n as [|n IH]; intros Hn.
  - cbn [seq map fold_left Standard.schedule]. auto.
  - destruct (IH ltac:(lia)) as (Hfold & Hl & Hw).
    rewrite seq_S, map_app, fold_left_app, Hfold. cbn [map fold_left].
    cbn [Standard.schedule]. cbv zeta. rewrite Hl.
    set (w := Standard.schedule ws n) in *.
    set (x := Z.lxor (Z.lxor (Z.lxor (nth (16 + n - 3) w 0) (nth (16 + n - 8) w 0))
                             (nth (16 + n - 14) w 0)) (nth (16 + n - 16) w 0)).
    assert (Hx : word32 x)
      by (unfold x; repeat apply word32_lxor; apply word32_nth, Hw).
    assert (Hstep : schedule_step (w ++ repeat 0 (64 - n)) (Z.of_nat (16 + n))
                    = (w ++ [_left_rotate x 1]) ++ repeat 0 (64 - S n)).
    { unfold schedule_step, Py.get, Py.set.
      replace (Z.to_nat (Z.of_nat (16 + n) - 3)) with (16 + n - 3)%nat by lia.
      replace (Z.to_nat (Z.of_nat (16 + n) - 8)) with (16 + n - 8)%nat by lia.
      replace (Z.to_nat (Z.of_nat (16 + n) - 14)) with (16 + n - 14)%nat by lia.
      replace (Z.to_nat (Z.of_nat (16 + n) - 16)) with (16 + n - 16)%nat by lia.
      rewrite !app_nth1 by lia. fold x.
      rewrite Nat2Z.id, <- Hl.
      replace (64 - n)%nat with (S (64 - S n)) by lia. cbn [repeat].
      rewrite set_nth_app, <- app_assoc. reflexivity. }
    rewrite Hstep. rewrite <- (left_rotate_rotl x 1 Hx ltac:(lia)).
    split; [reflexivity|]. split.
    + rewrite length_app, Hl. cbn [length]. lia.
    + apply Forall_app. split; [exact Hw|].
      constructor; [apply left_rotate_word | constructor].
Qed.

Lemma add32_chain (r f e k w : Z) :
  Standard.add32 (Standard.add32 (Standard.add32 (Standard.add32 r f) e) k) w
  = Z.land (r + f + e + k + w) 0xffffffff.
Proof.
  unfold Standard.add32.
  rewrite (Zplus_mod_idemp_l (r + f) e), (Zplus_mod_idemp_l (r + f + e) k),
    (Zplus_mod_idemp_l (r + f + e + k) w), mask32.
  reflexivity.
Qed.

Lemma round_step_standard (w : list Z) (r : state) (t : nat) :
  state_ok r ->
  round_step w r (Z.of_nat t) = Standard.round w r t /\
  state_ok (round_step w r (Z.of_nat t)).
Proof.
  destruct r as [[[[a b] c] d] e]. intros (Ha & Hb & Hc & Hd & He).
  split.
  - unfold round_step, Standard.round, Standard.f, Standard.k, Py.get.
    rewrite Nat2Z.id.
    rewrite <- (left_rotate_rotl a 5 Ha ltac:(lia)).
    rewrite <- (left_rotate_rotl b 30 Hb ltac:(lia)).
    rewrite add32_chain.
    destruct (Z.ltb_spec (Z.of_nat t) 20); destruct (Nat.ltb_spec t 20); try lia.
    { rewrite (choose_Ch b c d Hb Hd). reflexivity. }
    destruct (Z.ltb_spec (Z.of_nat t) 40); destruct (Nat.ltb_spec t 40); try lia.
    { reflexivity. }
    destruct (Z.ltb_spec (Z.of_nat t) 60); destruct (Nat.ltb_spec t 60); try lia.
    { rewrite majority_Maj. reflexivity. }
    reflexivity.
  - unfold round_step.
    destruct (Z.of_nat t <? 20); [|destruct (Z.of_nat t <? 40);
                                    [|destruct (Z.of_nat t <? 60)]];
      (split; [apply mask32_word|]); (split; [exact Ha|]);
      (split; [apply left_rotate_word|]); split; assumption.
Qed.

Lemma rounds_standard (w : list Z) (l : list nat) :
  forall r, state_ok r ->
    fold_left (round_step w) (map Z.of_nat l) r = fold_left (Standard.round w) l r.
Proof.
  induction l as [|t l IH]; intros r Hr; cbn [map fold_left].
  - reflexivity.
  - destruct (round_step_standard w r t Hr) as [E Hok].
    rewrite <- E. apply IH, Hok.
Qed.

(** C2: on a chaining state of five words below 2^32 and a block of 64
    bytes, [sha1_process_block] returns what the standard SHA-1 compression
    function returns: the schedule expanded from the 16 big-endian words,
    the 80 rounds with their four functions and constants, and the final
    addition modulo 2^32. *)
Theorem sha1_process_block_standard (block : list byte) (h0 h1 h2 h3 h4 : Z) :
  state_ok (h0, h1, h2, h3, h4) -> length block = 64%nat ->
  sha1_process_block block h0 h1 h2 h3 h4
  = OK (Standard.compress (h0, h1, h2, h3, h4) block).
Proof.
  intros Hh Hlen. unfold sha1_process_block, Py.unpack_16I, Standard.compress.
  rewrite Hlen. cbn [Nat.eqb bind].
  change (Py.range 16 80 1) with (map Z.of_nat (seq 16 64)).
  change (Py.range 0 80 1) with (map Z.of_nat (seq 0 80)).
  pose proof (schedule_loop (Py.be_words 16 block) (length_be_words 16 block)
                (be_words_word32 16 block) 64 (Nat.le_refl 64)) as (Hw & _ & _).
  rewrite Hw. change (repeat 0 (64 - 64)) with (@nil Z). rewrite app_nil_r.
  rewrite (be_words_standard 16 block Hlen).
  rewrite (rounds_standard _ _ _ Hh).
  destruct (fold_left (Standard.round _) _ _) as [[[[a b] c] d] e].
  unfold Standard.add32. rewrite <- !mask32. reflexivity.
Qed.

(** The initial state and the one padded block of the message abc. *)
Lemma sha1_process_block_standard_witness :
  let block := String.list_byte_of_string "abc"%string ++ [Byte.x80]
                 ++ repeat Byte.x00 52 ++ Py.be_bytes 8 24 in
  sha1_process_block block
    0x67452301 0xEFCDAB89 0x98BADCFE 0x10325476 0xC3D2E1F0
  = OK (Standard.compress IV block).
Proof.
  apply (sha1_process_block_standard
           (String.list_byte_of_string "abc"%string ++ [Byte.x80]
              ++ repeat Byte.x00 52 ++ Py.be_bytes 8 24)).
  - unfold state_ok, word32. lia.
  - reflexivity.
Defined.

(** ** The forged digest is the standard digest *)

Lemma process_block_compress (block : list byte) (h : state) :
  state_ok h -> length block = 64%nat ->
  (let '(h0, h1, h2, h3, h4) := h in sha1_process_block block h0 h1 h2 h3 h4)
  = OK (Standard.compress h block).
Proof.
  destruct h as [[[[h0 h1] h2] h3] h4]. intros Hh Hlen.
  unfold sha1_process_block, Py.unpack_16I, Standard.compress.
  rewrite Hlen. cbn [Nat.eqb bind].
  change (Py.range 16 80 1) with (map Z.of_nat (seq 16 64)).
  change (Py.range 0 80 1) with (map Z.of_nat (seq 0 80)).
  pose proof (schedule_loop (Py.be_words 16 block) (length_be_words 16 block)
                (be_words_word32 16 block) 64 (Nat.le_refl 64)) as (Hw & _ & _).
  rewrite Hw. change (repeat 0 (64 - 64)) with (@nil Z). rewrite app_nil_r.
  rewrite (be_words_standard 16 block Hlen), (rounds_standard _ _ _ Hh).
  destruct (fold_left (Standard.round _) _ _) as [[[[a b] c] d] e].
  unfold Standard.add32. rewrite <- !mask32. reflexivity.
Qed.

(** Over blocks of 64 bytes, the fold of the module's compression function
    is the fold of the standard one. *)
Lemma fold_blocks_standard (bs : list (list byte)) :
  Forall (fun b => length b = 64%nat) bs ->
  forall h, state_ok h -> fold_blocks bs h = OK (fold_left Standard.compress bs h).
Proof.
  induction 1 as [|b bs Hb _ IH]; intros h Hh; cbn [fold_blocks fold_left].
  - reflexivity.
  - pose proof (process_block_compress b h Hh Hb) as E.
    destruct h as [[[[h0 h1] h2] h3] h4]. rewrite E. cbn [bind].
    apply IH. eapply sha1_process_block_word, E.
Qed.

Lemma IV_ok : state_ok IV.
Proof. unfold state_ok, IV, word32. cbn. lia. Qed.

Lemma be_bytes_word_bytes (w : Z) : Py.be_bytes 4 w = Sha1.word_bytes w.
Proof.
  unfold Sha1.word_bytes. cbn [Py.be_bytes map].
  rewrite !Z.shiftr_div_pow2 by lia. reflexivity.
Qed.

Lemma state_bytes_serialize (h : state) : state_bytes h = Sha1.serialize h.
Proof.
  destruct h as [[[[h0 h1] h2] h3] h4]. cbn [state_bytes Sha1.serialize flat_map].
  rewrite !be_bytes_word_bytes, app_nil_r. reflexivity.
Qed.

Lemma hex_char_digit (x : Z) : 0 <= x < 16 -> Py.hex_char x = Sha1.hex_digit x.
Proof.
  intros H.
  assert (C : x = 0 \/ x = 1 \/ x = 2 \/ x = 3 \/ x = 4 \/ x = 5 \/ x = 6 \/ x = 7 \/
              x = 8 \/ x = 9 \/ x = 10 \/ x = 11 \/ x = 12 \/ x = 13 \/ x = 14 \/ x = 15)
    by lia.
  repeat (destruct C as [->|C]; [reflexivity|]).
  subst x. reflexivity.
Qed.

Lemma hex_standard (bs : list byte) : Py.hex bs = Sha1.hex bs.
Proof.
  induction bs as [|b bs IH]; cbn [Py.hex Sha1.hex flat_map app]; [reflexivity|].
  destruct (byte_nibbles b) as (Hh & Hl & _).
  rewrite (hex_char_digit _ Hh), (hex_char_digit _ Hl).
  fold (Py.hex bs). fold (Sha1.hex bs). rewrite IH. reflexivity.
Qed.

(** Where [sha1_padding] returns, it returns the padding of the
    standard. *)
Lemma sha1_padding_standard (L : Z) :
  0 <= L -> L * 8 < 2 ^ 64 -> sha1_padding L = OK (Sha1.pad L).
Proof.
  intros H0 H1. rewrite sha1_padding_ok by assumption. unfold Sha1.pad, Sha1.be64.
  replace ((56 - (L + 1) mod 64) mod 64) with ((55 - L) mod 64)
    by (Z.div_mod_to_equations; lia).
  cbn [Py.be_bytes map]. rewrite !Z.shiftr_div_pow2 by lia.
  replace (L * 8) with (8 * L) by lia. reflexivity.
Qed.

(** The digest engine the module is compared with gives the standard
    digest. *)
Lemma digest_standard (M : list byte) :
  Py.len M * 8 < 2 ^ 64 -> digest M = OK (Sha1.digest M).
Proof.
  intros Hbits.
  assert (Hnn : 0 <= Py.len M) by (unfold Py.len; lia).
  pose proof (sha1_padding_standard _ Hnn Hbits) as Hp.
  destruct (digest_run M _ Hp) as (st & E & _ & Hd).
  rewrite Hd. f_equal. rewrite state_bytes_serialize. unfold Sha1.digest. cbv zeta.
  f_equal.
  assert (Hp' : sha1_padding (0 + Py.len M) = OK (Sha1.pad (Py.len M))) by exact Hp.
  destruct (padded_blocks 0 M _ eq_refl Hp') as [Hmod _].
  pose proof (nat_div_64 _ Hmod) as Hlen.
  set (m := (length (M ++ Sha1.pad (Py.len M)) / 64)%nat) in *.
  assert (Hfull : Forall (fun b => length b = 64%nat)
                    (blocks m (M ++ Sha1.pad (Py.len M))))
    by (apply blocks_full; lia).
  rewrite (fold_blocks_standard _ Hfull IV IV_ok) in E.
  congruence.
Qed.

(** C1: for every secret [S], known suffix [K] and appended bytes [A]
    whose forged message has fewer than 2^64 bits, [sha1_extend], called
    with the standard hexadecimal SHA-1 digest of [S + K], the suffix [K],
    the bytes [A] and the length of [S], returns the standard hexadecimal
    SHA-1 digest of [S + K + pad(len(S) + len(K)) + A], computed on its own
    from the whole message, and the forged suffix
    [K + pad(len(S) + len(K)) + A]. *)
Theorem sha1_extend_forges_standard_digest (S K A : list byte) :
  let pad := Sha1.pad (Py.len S + Py.len K) in
  Py.len (S ++ K ++ pad ++ A) * 8 < 2 ^ 64 ->
  sha1_extend (Sha1.hexdigest (S ++ K)) K A (Py.len S)
  = OK (Sha1.hexdigest (S ++ K ++ pad ++ A), K ++ pad ++ A).
Proof.
  intros pad Hbits. rewrite !len_app in Hbits.
  assert (HS : 0 <= Py.len S) by (unfold Py.len; lia).
  assert (HK : 0 <= Py.len K) by (unfold Py.len; lia).
  assert (HA : 0 <= Py.len A) by (unfold Py.len; lia).
  assert (HP : 0 <= Py.len pad) by (unfold Py.len; lia).
  pose proof (sha1_padding_standard (Py.len S + Py.len K) ltac:(lia) ltac:(lia)) as Hp.
  fold pad in Hp.
  destruct (sha1_extend_continues_digest S K A pad Hp ltac:(lia))
    as (d0 & d & Hd0 & Hd & Hrun).
  rewrite digest_standard in Hd0 by (rewrite len_app; lia).
  rewrite digest_standard in Hd by (rewrite !len_app; lia).
  injection Hd0 as <-. injection Hd as <-.
  unfold Sha1.hexdigest. rewrite <- !hex_standard. exact Hrun.
Qed.

(** The demonstration of the module: the secret mysecret, the suffix A|5
    and the appended |1000000000. *)
Lemma sha1_extend_forges_standard_digest_witness :
  let S := String.list_byte_of_string "mysecret"%string in
  let K := String.list_byte_of_string "A|5"%string in
  let A := String.list_byte_of_string "|1000000000"%string in
  let pad := Sha1.pad (Py.len S + Py.len K) in
  sha1_extend (Sha1.hexdigest (S ++ K)) K A (Py.len S)
  = OK (Sha1.hexdigest (S ++ K ++ pad ++ A), K ++ pad ++ A).
Proof.
  apply (sha1_extend_forges_standard_digest
           (String.list_byte_of_string "mysecret"%string)
           (String.list_byte_of_string "A|5"%string)
           (String.list_byte_of_string "|1000000000"%string)).
  vm_compute. reflexivity.
Defined.

(** ** More on the padding *)

Lemma sha1_padding_raise (L : Z) :
  L < 0 \/ 2 ^ 64 <= L * 8 -> sha1_padding L = Raise StructError.
Proof.
  intros H. unfold sha1_padding, Py.pack_Q, Py.fits.
  destruct (Z.leb_spec 0 (L * 8)); cbn [andb bind]; [|reflexivity].
  destruct (Z.ltb_spec (L * 8) (2 ^ 64)); cbn [bind]; [lia | reflexivity].
Qed.

(** [sha1_padding] returns for a length from 0 to 2^61 - 1 and raises
    [struct.error] for a negative length and for a length from 2^61 on,
    whose bit count does not fit 64 bits. *)
Theorem sha1_padding_outcome (L : Z) :
  (0 <= L < 2 ^ 61 -> exists p, sha1_padding L = OK p) /\
  (L < 0 \/ 2 ^ 61 <= L -> sha1_padding L = Raise StructError).
Proof.
  split.
  - intros H. eexists. apply sha1_padding_ok; lia.
  - intros H. apply sha1_padding_raise. lia.
Qed.

Lemma sha1_padding_outcome_witness :
  (exists p, sha1_padding 0 = OK p) /\
  sha1_padding (-1) = Raise StructError /\
  sha1_padding (2 ^ 61) = Raise StructError.
Proof.
  split; [|split].
  - apply (proj1 (sha1_padding_outcome 0)). lia.
  - apply (proj2 (sha1_padding_outcome (-1))). lia.
  - apply (proj2 (sha1_padding_outcome (2 ^ 61))). lia.
Defined.

Lemma sha1_padding_total_len (L : Z) (p : list byte) :
  sha1_padding L = OK p -> L + Py.len p = 64 * ((L + 8) / 64 + 1).
Proof.
  intros H. destruct (sha1_padding_len _ _ H) as [Hlen _].
  rewrite Hlen. Z.div_mod_to_equations. lia.
Qed.

(** A message and its padding together take the least multiple of 64
    bytes that leaves room for the 9 bytes every padding needs: the padding
    has 9 bytes exactly when the length is 55 modulo 64 and 72 bytes exactly
    when it is 56 modulo 64. *)
Theorem sha1_padding_next_block (L : Z) (p : list byte) :
  sha1_padding L = OK p ->
  L + Py.len p = 64 * ((L + 8) / 64 + 1) /\
  (forall m, L + 9 <= 64 * m -> L + Py.len p <= 64 * m) /\
  (Py.len p = 9 <-> L mod 64 = 55) /\
  (Py.len p = 72 <-> L mod 64 = 56).
Proof.
  intros H. pose proof (sha1_padding_total_len _ _ H) as Ht.
  destruct (sha1_padding_len _ _ H) as [Hlen _].
  split; [exact Ht|]. split; [|split].
  - intros m Hm. rewrite Ht. Z.div_mod_to_equations. lia.
  - rewrite Hlen. Z.div_mod_to_equations. lia.
  - rewrite Hlen. Z.div_mod_to_equations. lia.
Qed.

Lemma sha1_padding_next_block_witness :
  exists p,
    sha1_padding 55 = OK p /\ 55 + Py.len p = 64 * ((55 + 8) / 64 + 1) /\
    (forall m, 55 + 9 <= 64 * m -> 55 + Py.len p <= 64 * m) /\
    (Py.len p = 9 <-> 55 mod 64 = 55) /\
    (Py.len p = 72 <-> 55 mod 64 = 56).
Proof.
  eexists. split; [reflexivity|].
  apply (sha1_padding_next_block 55). reflexivity.
Defined.

Lemma sha1_padding_tail (L : Z) (p : list byte) :
  sha1_padding L = OK p -> Py.be_value (skipn (length p - 8) p) = L * 8.
Proof.
  intros H. destruct (sha1_padding_inv _ _ H) as [H0 H1].
  rewrite sha1_padding_ok in H by assumption.
  assert (Hp : [Byte.x80] ++ repeat Byte.x00 (Z.to_nat ((56 - (L + 1) mod 64) mod 64))
               ++ Py.be_bytes 8 (L * 8) = p) by congruence.
  clear H. subst p.
  rewrite app_assoc, length_app, length_be_bytes, Nat.add_sub.
  rewrite skipn_app, skipn_all, Nat.sub_diag. cbn [app skipn].
  apply be_value_be_bytes. change (256 ^ Z.of_nat 8) with (2 ^ 64). lia.
Qed.

(** The padding tells the length: two lengths with the same padding are
    equal. *)
Theorem sha1_padding_injective (L1 L2 : Z) (p : list byte) :
  sha1_padding L1 = OK p -> sha1_padding L2 = OK p -> L1 = L2.
Proof.
  intros H1 H2. apply sha1_padding_tail in H1. apply sha1_padding_tail in H2. lia.
Qed.

Lemma sha1_padding_injective_witness :
  exists p, sha1_padding 11 = OK p /\ 11 = 11.
Proof.
  eexists. split; [reflexivity|].
  eapply (sha1_padding_injective 11 11); reflexivity.
Defined.

(** ** The rotation *)

Lemma testbit_mask32 (x i : Z) :
  Z.testbit (Z.land x 0xffffffff) i = Z.testbit x i && ((0 <=? i) && (i <? 32)).
Proof.
  change 0xffffffff with (Z.ones 32).
  rewrite Z.land_spec, Z.testbit_ones by lia. reflexivity.
Qed.

Lemma left_rotate_testbit (n b i : Z) :
  0 <= b <= 32 -> 0 <= i ->
  Z.testbit (_left_rotate n b) i
  = if i <? 32 then Z.testbit n ((i - b) mod 32) else false.
Proof.
  intros Hb Hi. unfold _left_rotate. cbv zeta.
  rewrite testbit_mask32, Z.lor_spec.
  rewrite Z.shiftl_spec, Z.shiftr_spec by lia.
  rewrite !testbit_mask32.
  destruct (Z.ltb_spec i 32) as [Hlt|Hge].
  2:{ replace (0 <=? i) with true by (symmetry; apply Z.leb_le; lia).
      cbn [andb]. apply andb_false_r. }
  replace (0 <=? i) with true by (symmetry; apply Z.leb_le; lia).
  cbn [andb]. rewrite andb_true_r.
  destruct (Z.lt_ge_cases i b) as [Hib|Hib].
  - rewrite (Z.testbit_neg_r _ (i - b)) by lia. cbn [orb].
    replace ((i - b) mod 32) with (i + (32 - b))
      by (Z.div_mod_to_equations; lia).
    replace (0 <=? i + (32 - b)) with true by (symmetry; apply Z.leb_le; lia).
    replace (i + (32 - b) <? 32) with true by (symmetry; apply Z.ltb_lt; lia).
    cbn [andb]. apply andb_true_r.
  - replace ((i - b) mod 32) with (i - b) by (Z.div_mod_to_equations; lia).
    replace (0 <=? i - b) with true by (symmetry; apply Z.leb_le; lia).
    replace (i - b <? 32) with true by (symmetry; apply Z.ltb_lt; lia).
    replace (i + (32 - b) <? 32) with false by (symmetry; apply Z.ltb_ge; lia).
    cbn [andb]. rewrite !andb_true_r, !andb_false_r. apply orb_false_r.
Qed.

(** [_left_rotate] rotates the low 32 bits of any integer, negative ones
    too: for an amount [b] from 0 to 32, bit [i] of the result is bit
    [i - b] modulo 32 of [n] for [i] from 0 to 31, and there is no higher
    bit.  So rotating by [b] and then by [32 - b] gives back the low 32
    bits, and so does rotating by 0 or by 32. *)
Theorem left_rotate_rotation (n b : Z) :
  0 <= b <= 32 ->
  (forall i, 0 <= i ->
     Z.testbit (_left_rotate n b) i
     = if i <? 32 then Z.testbit n ((i - b) mod 32) else false) /\
  _left_rotate (_left_rotate n b) (32 - b) = Z.land n 0xffffffff /\
  _left_rotate n 0 = Z.land n 0xffffffff /\
  _left_rotate n 32 = Z.land n 0xffffffff.
Proof.
  intros Hb.
  split; [intros i Hi; apply left_rotate_testbit; assumption|].
  assert (G : forall x c, 0 <= c <= 32 ->
                (forall i, 0 <= i < 32 -> Z.testbit x i = Z.testbit n ((i + c) mod 32)) ->
                (forall i, 32 <= i -> Z.testbit x i = false) ->
                (c mod 32 = 0) -> x = Z.land n 0xffffffff).
  { intros x c Hc Hlow Hhigh Hc0. apply Z.bits_inj'. intros i Hi.
    rewrite testbit_mask32.
    replace (0 <=? i) with true by (symmetry; apply Z.leb_le; lia). cbn [andb].
    destruct (Z.ltb_spec i 32).
    - rewrite Hlow by lia. rewrite andb_true_r. f_equal.
      Z.div_mod_to_equations. lia.
    - rewrite Hhigh by lia. symmetry. apply andb_false_r. }
  split; [|split].
  - apply (G _ 0); [lia | | | reflexivity].
    + intros i Hi. rewrite left_rotate_testbit by lia.
      replace (i <? 32) with true by (symmetry; apply Z.ltb_lt; lia).
      assert (0 <= (i - (32 - b)) mod 32 < 32) by (apply Z.mod_pos_bound; lia).
      rewrite left_rotate_testbit by lia.
      replace ((i - (32 - b)) mod 32 <? 32) with true by (symmetry; apply Z.ltb_lt; lia).
      f_equal; Z.div_mod_to_equations; lia.
    + intros i Hi. rewrite left_rotate_testbit by lia.
      replace (i <? 32) with false by (symmetry; apply Z.ltb_ge; lia). reflexivity.
  - apply (G _ 0); [lia | | | reflexivity].
    + intros i Hi. rewrite left_rotate_testbit by lia.
      replace (i <? 32) with true by (symmetry; apply Z.ltb_lt; lia).
      f_equal; Z.div_mod_to_equations; lia.
    + intros i Hi. rewrite left_rotate_testbit by lia.
      replace (i <? 32) with false by (symmetry; apply Z.ltb_ge; lia). reflexivity.
  - apply (G _ 0); [lia | | | reflexivity].
    + intros i Hi. rewrite left_rotate_testbit by lia.
      replace (i <? 32) with true by (symmetry; apply Z.ltb_lt; lia).
      f_equal; Z.div_mod_to_equations; lia.
    + intros i Hi. rewrite left_rotate_testbit by lia.
      replace (i <? 32) with false by (symmetry; apply Z.ltb_ge; lia). reflexivity.
Qed.

(** The integer -2 rotated by 30. *)
Lemma left_rotate_rotation_witness :
  (forall i, 0 <= i ->
     Z.testbit (_left_rotate (-2) 30) i
     = if i <? 32 then Z.testbit (-2) ((i - 30) mod 32) else false) /\
  _left_rotate (_left_rotate (-2) 30) (32 - 30) = Z.land (-2) 0xffffffff /\
  _left_rotate (-2) 0 = Z.land (-2) 0xffffffff /\
  _left_rotate (-2) 32 = Z.land (-2) 0xffffffff.
Proof. apply (left_rotate_rotation (-2) 30). lia. Defined.

(** ** The compression function reads its state modulo 2^32 *)

Lemma eqm32_mod (x y : Z) : eqm32 x y <-> x mod 2 ^ 32 = y mod 2 ^ 32.
Proof. unfold eqm32. rewrite !mask32. reflexivity. Qed.

Lemma eqm32_add (x x' y y' : Z) : eqm32 x x' -> eqm32 y y' -> eqm32 (x + y) (x' + y').
Proof.
  rewrite !eqm32_mod. intros Hx Hy.
  rewrite (Zplus_mod x y), (Zplus_mod x' y'), Hx, Hy. reflexivity.
Qed.

Lemma eqm32_refl (x : Z) : eqm32 x x.
Proof. reflexivity. Qed.

Lemma left_rotate_eqm32 (x y n : Z) : eqm32 x y -> _left_rotate x n = _left_rotate y n.
Proof. unfold eqm32, _left_rotate. cbv zeta. intros H. rewrite H. reflexivity. Qed.

Lemma choose_low_bits (b c d : Z) :
  Z.land (Z.lor (Z.land b c) (Z.land (Z.lnot b) d)) (Z.ones 32)
  = Z.land (Z.lor (Z.land (Z.land b (Z.ones 32)) (Z.land c (Z.ones 32)))
                  (Z.land (Z.lnot (Z.land b (Z.ones 32))) (Z.land d (Z.ones 32))))
      (Z.ones 32).
Proof. Z.bitblast. Qed.

Lemma parity_low_bits (b c d : Z) :
  Z.land (Z.lxor (Z.lxor b c) d) (Z.ones 32)
  = Z.land (Z.lxor (Z.lxor (Z.land b (Z.ones 32)) (Z.land c (Z.ones 32)))
                   (Z.land d (Z.ones 32)))
      (Z.ones 32).
Proof. Z.bitblast. Qed.

Lemma majority_low_bits (b c d : Z) :
  Z.land (Z.lor (Z.lor (Z.land b c) (Z.land b d)) (Z.land c d)) (Z.ones 32)
  = Z.land (Z.lor (Z.lor (Z.land (Z.land b (Z.ones 32)) (Z.land c (Z.ones 32)))
                         (Z.land (Z.land b (Z.ones 32)) (Z.land d (Z.ones 32))))
                  (Z.land (Z.land c (Z.ones 32)) (Z.land d (Z.ones 32))))
      (Z.ones 32).
Proof. Z.bitblast. Qed.

Lemma round_step_eqm32 (w : list Z) (i : Z) (r r' : state) :
  state_eqm32 r r' -> state_eqm32 (round_step w r i) (round_step w r' i).
Proof.
  destruct r as [[[[a b] c] d] e], r' as [[[[a' b'] c'] d'] e'].
  intros (Ha & Hb & Hc & Hd & He).
  assert (Hch : eqm32 (Z.lor (Z.land b c) (Z.land (Z.lnot b) d))
                      (Z.lor (Z.land b' c') (Z.land (Z.lnot b') d'))).
  { unfold eqm32 in *. change 0xffffffff with (Z.ones 32) in *.
    rewrite choose_low_bits, (choose_low_bits b'), Hb, Hc, Hd. reflexivity. }
  assert (Hpa : eqm32 (Z.lxor (Z.lxor b c) d) (Z.lxor (Z.lxor b' c') d')).
  { unfold eqm32 in *. change 0xffffffff with (Z.ones 32) in *.
    rewrite parity_low_bits, (parity_low_bits b'), Hb, Hc, Hd. reflexivity. }
  assert (Hma : eqm32 (Z.lor (Z.lor (Z.land b c) (Z.land b d)) (Z.land c d))
                      (Z.lor (Z.lor (Z.land b' c') (Z.land b' d')) (Z.land c' d'))).
  { unfold eqm32 in *. change 0xffffffff with (Z.ones 32) in *.
    rewrite majority_low_bits, (majority_low_bits b'), Hb, Hc, Hd. reflexivity. }
  unfold round_step.
  rewrite (left_rotate_eqm32 a a' 5 Ha), (left_rotate_eqm32 b b' 30 Hb).
  destruct (i <? 20); [|destruct (i <? 40); [|destruct (i <? 60)]];
    (split; [|split; [exact Ha | split; [apply eqm32_refl | split; assumption]]]);
    unfold eqm32; f_equal;
    repeat apply eqm32_add; try apply eqm32_refl; assumption.
Qed.

Lemma rounds_eqm32 (w : list Z) (idx : list Z) :
  forall r r', state_eqm32 r r' ->
    state_eqm32 (fold_left (round_step w) idx r) (fold_left (round_step w) idx r').
Proof.
  induction idx as [|i idx IH]; intros r r' H; cbn [fold_left].
  - exact H.
  - apply IH, round_step_eqm32, H.
Qed.

(** [sha1_process_block] reads each state word modulo 2^32: two states
    whose words agree on their low 32 bits give the same result on every
    block, so a negative word or one from 2^32 on is taken for its low 32
    bits. *)
Theorem sha1_process_block_low_bits (block : list byte)
  (h0 h1 h2 h3 h4 h0' h1' h2' h3' h4' : Z) :
  eqm32 h0 h0' -> eqm32 h1 h1' -> eqm32 h2 h2' -> eqm32 h3 h3' -> eqm32 h4 h4' ->
  sha1_process_block block h0 h1 h2 h3 h4
  = sha1_process_block block h0' h1' h2' h3' h4'.
Proof.
  intros E0 E1 E2 E3 E4. unfold sha1_process_block.
  destruct (Py.unpack_16I block) as [ws|e]; cbn [bind]; [|reflexivity].
  set (w := fold_left schedule_step _ _).
  pose proof (rounds_eqm32 w (Py.range 0 80 1) (h0, h1, h2, h3, h4)
                (h0', h1', h2', h3', h4')
                (conj E0 (conj E1 (conj E2 (conj E3 E4))))) as H.
  destruct (fold_left (round_step w) _ (h0, h1, h2, h3, h4)) as [[[[a b] c] d] e].
  destruct (fold_left (round_step w) _ (h0', h1', h2', h3', h4'))
    as [[[[a' b'] c'] d'] e'].
  destruct H as (Ha & Hb & Hc & Hd & He).
  pose proof (eqm32_add _ _ _ _ E0 Ha) as G0. pose proof (eqm32_add _ _ _ _ E1 Hb) as G1.
  pose proof (eqm32_add _ _ _ _ E2 Hc) as G2. pose proof (eqm32_add _ _ _ _ E3 Hd) as G3.
  pose proof (eqm32_add _ _ _ _ E4 He) as G4.
  unfold eqm32 in G0, G1, G2, G3, G4. rewrite G0, G1, G2, G3, G4. reflexivity.
Qed.

(** The state of the words -1, 2^32, 2^32 + 7, -2^32 and 5 against that of
    their low 32 bits, on a block of 64 letters a. *)
Lemma sha1_process_block_low_bits_witness :
  sha1_process_block (repeat Byte.x61 64) (-1) (2 ^ 32) (2 ^ 32 + 7) (- 2 ^ 32) 5
  = sha1_process_block (repeat Byte.x61 64) 0xffffffff 0 7 0 5.
Proof.
  apply (sha1_process_block_low_bits (repeat Byte.x61 64)); reflexivity.
Defined.

(** ** The outcomes of [sha1_extend_hash] *)

Lemma fits_word32 (x : Z) : Py.fits 32 x = true <-> word32 x.
Proof.
  unfold Py.fits, word32. rewrite andb_true_iff, Z.leb_le, Z.ltb_lt. reflexivity.
Qed.

Lemma pack_5I_inv (h0 h1 h2 h3 h4 : Z) (d : list byte) :
  Py.pack_5I h0 h1 h2 h3 h4 = OK d ->
  state_ok (h0, h1, h2, h3, h4) /\ d = state_bytes (h0, h1, h2, h3, h4).
Proof.
  unfold Py.pack_5I. destruct (forallb _ _) eqn:E; [|discriminate].
  intros H. split; [|injection H as <-; reflexivity].
  cbn [forallb] in E. rewrite !andb_true_iff, !fits_word32 in E.
  unfold state_ok. tauto.
Qed.

Lemma pack_5I_raise (h0 h1 h2 h3 h4 : Z) :
  ~ state_ok (h0, h1, h2, h3, h4) -> Py.pack_5I h0 h1 h2 h3 h4 = Raise StructError.
Proof.
  intros H. destruct (Py.pack_5I h0 h1 h2 h3 h4) as [d|e] eqn:E.
  - apply pack_5I_inv in E. tauto.
  - revert E. unfold Py.pack_5I. destruct (forallb _ _); congruence.
Qed.

Lemma sha1_padding_raises_StructError (L : Z) (e : exn) :
  sha1_padding L = Raise e -> e = StructError.
Proof.
  unfold sha1_padding, Py.pack_Q. destruct (Py.fits 64 (L * 8)); cbn [bind]; congruence.
Qed.

Lemma nat_div_64_le (l : nat) : (64 * (l / 64) <= l)%nat.
Proof.
  pose proof (Nat.div_mod_eq l 64) as Hdm. set (q := (l / 64)%nat) in *. lia.
Qed.

(** The outcomes of [sha1_extend_hash].  A state that is no list of five
    entries raises [ValueError] before anything else.  With five entries, a
    total length that is negative or from 2^61 on raises [struct.error].
    Otherwise the call returns 20 bytes when the five words are below 2^32
    or [data] and its padding fill at least one block, and raises
    [struct.error] when neither holds: the words reach the final packing
    unmasked. *)
Theorem sha1_extend_hash_outcome (initial_state : list Z) (data : list byte)
  (previous_length : Z) :
  (length initial_state <> 5%nat ->
   sha1_extend_hash initial_state data previous_length = Raise ValueError) /\
  (length initial_state = 5%nat ->
   (previous_length + Py.len data < 0 \/ 2 ^ 61 <= previous_length + Py.len data ->
    sha1_extend_hash initial_state data previous_length = Raise StructError) /\
   forall p, sha1_padding (previous_length + Py.len data) = OK p ->
     (Forall word32 initial_state \/ 64 <= Py.len data + Py.len p ->
      exists d, sha1_extend_hash initial_state data previous_length = OK d /\
                length d = 20%nat) /\
     (~ Forall word32 initial_state -> Py.len data + Py.len p < 64 ->
      sha1_extend_hash initial_state data previous_length = Raise StructError)).
Proof.
  split.
  - intros H. unfold sha1_extend_hash.
    destruct initial_state as [|h0 [|h1 [|h2 [|h3 [|h4 [|h5 t]]]]]];
      try reflexivity. cbn [length] in H. lia.
  - intros H.
    destruct initial_state as [|h0 [|h1 [|h2 [|h3 [|h4 [|h5 t]]]]]];
      try discriminate. clear H.
    split.
    + intros Hbad. unfold sha1_extend_hash.
      rewrite sha1_padding_raise by lia. reflexivity.
    + intros p Hp. rewrite (sha1_extend_hash_run _ _ _ _ _ _ _ _ Hp).
      pose proof (nat_div_64_le (length (data ++ p))) as Hle.
      pose proof (len_app data p) as Hlen. unfold Py.len in Hlen.
      set (m := (length (data ++ p) / 64)%nat) in *.
      destruct (fold_blocks_full (blocks m (data ++ p))
                  (blocks_full m (data ++ p) Hle) (h0, h1, h2, h3, h4))
        as (st & E & Hst).
      rewrite E. cbn [bind]. split.
      * intros Hor.
        assert (Hok : state_ok st).
        { destruct Hor as [Hw|Hbig].
          - eapply fold_blocks_ok; [|exact E]. unfold state_ok.
            repeat match goal with
                   | H : Forall _ (_ :: _) |- _ => inversion H; clear H; subst
                   end.
            repeat (split; [assumption|]). assumption.
          - apply Hst. destruct m as [|m'] eqn:Em; [|discriminate].
            exfalso. subst m. unfold Py.len in Hbig.
            pose proof (Nat.div_mod_eq (length (data ++ p)) 64) as Hdm.
            pose proof (Nat.mod_upper_bound (length (data ++ p)) 64 ltac:(lia)) as Hr.
            rewrite Em in Hdm. lia. }
        destruct st as [[[[a b] c] d] e]. rewrite (pack_5I_state _ _ _ _ _ Hok).
        eexists. split; [reflexivity | apply length_state_bytes].
      * intros Hnw Hsmall.
        assert (Hm : m = 0%nat).
        { subst m. apply Nat.div_small. unfold Py.len in Hsmall. lia. }
        rewrite Hm in E. cbn [blocks fold_blocks] in E. injection E as <-.
        apply pack_5I_raise. intros (H0 & H1 & H2 & H3 & H4).
        apply Hnw. repeat (constructor; [assumption|]). constructor.
Qed.

(** Three bytes after nothing, with a state of four entries, at a
    negative length, with words below 2^32 and with a word 2^32. *)
Lemma sha1_extend_hash_outcome_witness :
  sha1_extend_hash [1; 2; 3; 4] [Byte.x61; Byte.x62; Byte.x63] 0 = Raise ValueError /\
  sha1_extend_hash [1; 2; 3; 4; 5] [Byte.x61; Byte.x62; Byte.x63] (-4) = Raise StructError /\
  (exists d, sha1_extend_hash [1; 2; 3; 4; 5] [Byte.x61; Byte.x62; Byte.x63] 5 = OK d /\
             length d = 20%nat) /\
  sha1_extend_hash [1; 2; 3; 4; 2 ^ 32] [Byte.x61; Byte.x62; Byte.x63] 5 = Raise StructError.
Proof.
  pose (abc := [Byte.x61; Byte.x62; Byte.x63]).
  split; [|split; [|split]].
  - apply (proj1 (sha1_extend_hash_outcome [1; 2; 3; 4] abc 0)). cbn [length]. lia.
  - apply (proj1 (proj2 (sha1_extend_hash_outcome [1; 2; 3; 4; 5] abc (-4)) eq_refl)).
    vm_compute. left. reflexivity.
  - refine (proj1 (proj2 (proj2 (sha1_extend_hash_outcome [1; 2; 3; 4; 5] abc 5) eq_refl)
                     _ eq_refl) _).
    left. repeat (constructor; [unfold word32; lia|]). constructor.
  - refine (proj2 (proj2 (proj2 (sha1_extend_hash_outcome [1; 2; 3; 4; 2 ^ 32] abc 5) eq_refl)
                     _ eq_refl) _ _).
    + intros H. rewrite Forall_forall in H.
      assert (Hw : word32 (2 ^ 32)) by (apply H; cbn [In]; auto 10).
      unfold word32 in Hw. lia.
    + vm_compute. reflexivity.
Defined.

(** ** Continuing a continued hash *)

Lemma sha1_extend_hash_aligned (h0 h1 h2 h3 h4 : Z) (data tail : list byte)
  (previous_length : Z) :
  previous_length mod 64 = 0 ->
  sha1_padding (previous_length + Py.len data) = OK tail ->
  exists st,
    fold_blocks (blocks (length (data ++ tail) / 64) (data ++ tail)) (h0, h1, h2, h3, h4)
    = OK st /\
    state_ok st /\
    sha1_extend_hash [h0; h1; h2; h3; h4] data previous_length = OK (state_bytes st).
Proof.
  intros Hprev Htail.
  destruct (padded_blocks _ _ _ Hprev Htail) as [Hmod Hq].
  pose proof (nat_div_64 _ Hmod) as Hlen.
  rewrite (sha1_extend_hash_run _ _ _ _ _ _ _ _ Htail).
  set (m := (length (data ++ tail) / 64)%nat) in *.
  destruct (fold_blocks_full (blocks m (data ++ tail))
              (blocks_full m (data ++ tail) ltac:(lia)) (h0, h1, h2, h3, h4))
    as (st & E & Hst).
  assert (Hok : state_ok st).
  { apply Hst. destruct m; [lia | discriminate]. }
  exists st. split; [exact E|]. split; [exact Hok|].
  rewrite E. cbn [bind]. destruct st as [[[[a b] c] d] e]. apply pack_5I_state, Hok.
Qed.

(** [sha1_extend_hash] composes.  From a block boundary and any state,
    hashing [data1], then continuing from the state just returned with
    [data2] after [data1] and its padding, returns what hashing
    [data1 + padding + data2] at once returns. *)
Theorem sha1_extend_hash_composes (h0 h1 h2 h3 h4 : Z) (data1 data2 p1 : list byte)
  (previous_length : Z) :
  previous_length mod 64 = 0 ->
  sha1_padding (previous_length + Py.len data1) = OK p1 ->
  (previous_length + Py.len data1 + Py.len p1 + Py.len data2) * 8 < 2 ^ 64 ->
  exists st1 d,
    sha1_extend_hash [h0; h1; h2; h3; h4] data1 previous_length = OK (state_bytes st1) /\
    sha1_extend_hash (state_words st1) data2
      (previous_length + Py.len data1 + Py.len p1) = OK d /\
    sha1_extend_hash [h0; h1; h2; h3; h4] (data1 ++ p1 ++ data2) previous_length = OK d.
Proof.
  intros Hprev Hp1 Hbits.
  destruct (sha1_extend_hash_aligned h0 h1 h2 h3 h4 data1 p1 previous_length Hprev Hp1)
    as (st1 & E1 & Hok1 & R1).
  destruct (sha1_padding_len _ _ Hp1) as [_ Hprev2].
  destruct (sha1_padding_inv _ _ Hp1) as [Hnn _].
  assert (Hnn2 : 0 <= previous_length + Py.len data1 + Py.len p1 + Py.len data2)
    by (unfold Py.len in *; lia).
  pose proof (sha1_padding_ok _ Hnn2 Hbits) as Htail.
  set (tail := [Byte.x80] ++ _) in Htail.
  destruct st1 as [[[[a b] c] d] e].
  destruct (sha1_extend_hash_aligned a b c d e data2 tail _ Hprev2 Htail)
    as (st2 & E2 & Hok2 & R2).
  exists (a, b, c, d, e), (state_bytes st2).
  split; [exact R1|]. split; [exact R2|].
  assert (Htail' : sha1_padding (previous_length + Py.len (data1 ++ p1 ++ data2)) = OK tail).
  { rewrite !len_app. rewrite <- Htail. f_equal. lia. }
  destruct (sha1_extend_hash_aligned h0 h1 h2 h3 h4 (data1 ++ p1 ++ data2) tail
              previous_length Hprev Htail') as (st & E & _ & R).
  rewrite R. do 2 f_equal.
  assert (Hs : OK st = OK st2); [|congruence].
  rewrite <- E, <- E2.
  replace ((data1 ++ p1 ++ data2) ++ tail) with ((data1 ++ p1) ++ (data2 ++ tail))
    by (rewrite <- !app_assoc; reflexivity).
  destruct (padded_blocks _ _ _ Hprev Hp1) as [H0 _].
  destruct (padded_blocks _ _ _ Hprev2 Htail) as [H1 _].
  pose proof (nat_div_64 _ H0) as L0. pose proof (nat_div_64 _ H1) as L1.
  set (m0 := (length (data1 ++ p1) / 64)%nat) in *.
  set (m1 := (length (data2 ++ tail) / 64)%nat) in *.
  replace (length ((data1 ++ p1) ++ data2 ++ tail) / 64)%nat with (m0 + m1)%nat.
  2:{ rewrite length_app, L0, L1.
      replace (64 * m0 + 64 * m1)%nat with ((m0 + m1) * 64)%nat by lia.
      rewrite Nat.div_mul by lia. reflexivity. }
  rewrite blocks_app, fold_blocks_app.
  rewrite blocks_prefix by lia. rewrite E1. cbn [bind].
  replace (64 * m0)%nat with (length (data1 ++ p1)) by exact L0.
  rewrite skipn_app, skipn_all, Nat.sub_diag. reflexivity.
Qed.

(** The message abc hashed from the initial state, then continued with
    def. *)
Lemma sha1_extend_hash_composes_witness :
  let abc := [Byte.x61; Byte.x62; Byte.x63] in
  let def := [Byte.x64; Byte.x65; Byte.x66] in
  let p1 := [Byte.x80] ++ repeat Byte.x00 52 ++ Py.be_bytes 8 24 in
  exists st1 d,
    sha1_extend_hash [0x67452301; 0xEFCDAB89; 0x98BADCFE; 0x10325476; 0xC3D2E1F0] abc 0
    = OK (state_bytes st1) /\
    sha1_extend_hash (state_words st1) def (0 + Py.len abc + Py.len p1) = OK d /\
    sha1_extend_hash [0x67452301; 0xEFCDAB89; 0x98BADCFE; 0x10325476; 0xC3D2E1F0]
      (abc ++ p1 ++ def) 0 = OK d.
Proof.
  apply (sha1_extend_hash_composes
           0x67452301 0xEFCDAB89 0x98BADCFE 0x10325476 0xC3D2E1F0
           [Byte.x61; Byte.x62; Byte.x63] [Byte.x64; Byte.x65; Byte.x66]).
  - reflexivity.
  - reflexivity.
  - vm_compute. reflexivity.
Defined.

(** ** The outcomes and the result of [sha1_extend] *)

Lemma mapM_length {A B : Type} (f : A -> result B) (l : list A) :
  forall ys, mapM f l = OK ys -> length ys = length l.
Proof.
  induction l as [|a l IH]; intros ys H; cbn [mapM] in H.
  - injection H as <-. reflexivity.
  - apply result_bind_ok in H as (y & _ & H).
    apply result_bind_ok in H as (ys' & E & H).
    injection H as <-. cbn [length]. f_equal. apply IH, E.
Qed.

Lemma parse_state_five (s : list ascii) (h : list Z) :
  parse_state s = OK h -> exists h0 h1 h2 h3 h4, h = [h0; h1; h2; h3; h4].
Proof.
  intros H. apply mapM_length in H. rewrite range_0_40_8 in H. cbn [length] in H.
  destruct h as [|h0 [|h1 [|h2 [|h3 [|h4 [|h5 t]]]]]]; try discriminate.
  do 5 eexists. reflexivity.
Qed.

Lemma parse_state_raises_ValueError (s : list ascii) (e : exn) :
  parse_state s = Raise e -> e = ValueError.
Proof.
  unfold parse_state. intros H. apply mapM_raise in H as (i & _ & H).
  eapply int16_raises_ValueError, H.
Qed.

(** The outcomes of [sha1_extend].  A digest that does not parse raises
    [ValueError], whatever the lengths.  With a digest that parses, signed
    groups included, the call raises [struct.error] when the assumed total
    length [secret_length + len(original_data)] is negative or the forged
    message has 2^64 bits or more, and returns otherwise. *)
Theorem sha1_extend_outcome (hex : list ascii) (K A : list byte) (n : Z) :
  let L := n + Py.len K in
  (forall e, parse_state hex = Raise e -> sha1_extend hex K A n = Raise ValueError) /\
  (forall h, parse_state hex = OK h ->
     (L < 0 \/ 2 ^ 64 <= (64 * ((L + 8) / 64 + 1) + Py.len A) * 8 ->
      sha1_extend hex K A n = Raise StructError) /\
     (0 <= L -> (64 * ((L + 8) / 64 + 1) + Py.len A) * 8 < 2 ^ 64 ->
      exists d p, sha1_padding L = OK p /\ sha1_extend hex K A n = OK (d, K ++ p ++ A))).
Proof.
  intros L. assert (HA : 0 <= Py.len A) by (unfold Py.len; lia).
  split.
  - intros e H. unfold sha1_extend. rewrite H. cbn [bind].
    apply parse_state_raises_ValueError in H. congruence.
  - intros h Hparse.
    destruct (parse_state_five _ _ Hparse) as (h0 & h1 & h2 & h3 & h4 & ->).
    split.
    + intros Hbad. unfold sha1_extend. rewrite Hparse. cbn [bind]. fold L.
      destruct (Z.lt_ge_cases L 0) as [Hneg|Hnn].
      { rewrite sha1_padding_raise by lia. reflexivity. }
      destruct (Z.lt_ge_cases (L * 8) (2 ^ 64)) as [Hlt|Hge].
      2:{ rewrite sha1_padding_raise by lia. reflexivity. }
      pose proof (sha1_padding_ok L Hnn Hlt) as Hp. rewrite Hp. cbn [bind].
      rewrite (sha1_padding_total_len _ _ Hp).
      unfold sha1_extend_hash. rewrite sha1_padding_raise by lia. reflexivity.
    + intros Hnn Hbits.
      assert (Hlt : L * 8 < 2 ^ 64) by (Z.div_mod_to_equations; lia).
      pose proof (sha1_padding_ok L Hnn Hlt) as Hp.
      set (p := [Byte.x80] ++ _) in Hp.
      pose proof (sha1_padding_total_len _ _ Hp) as Ht.
      pose proof (sha1_padding_ok (L + Py.len p + Py.len A)
                    ltac:(unfold Py.len in *; lia) ltac:(rewrite Ht; lia)) as Htail.
      destruct (sha1_extend_run hex K A n _ _ _ _ _ p _ Hparse Hp Htail)
        as (st & _ & _ & Hrun).
      exists (Py.hex (state_bytes st)), p. split; [exact Hp | exact Hrun].
Qed.

(** A digest with a letter g, a secret length of -4 before 3 known bytes,
    and the demonstration's call with a digest that starts with a sign. *)
Lemma sha1_extend_outcome_witness :
  let K := String.list_byte_of_string "A|5"%string in
  let A := String.list_byte_of_string "|1000000000"%string in
  sha1_extend (String.list_ascii_of_string "gc2a81bbc8232906a77d3f9858a38371ae776861"%string)
    K A 8 = Raise ValueError /\
  sha1_extend (String.list_ascii_of_string "fc2a81bbc8232906a77d3f9858a38371ae776861"%string)
    K A (-4) = Raise StructError /\
  exists d p,
    sha1_padding (8 + Py.len K) = OK p /\
    sha1_extend (String.list_ascii_of_string "-c2a81bbc8232906a77d3f9858a38371ae776861"%string)
      K A 8 = OK (d, K ++ p ++ A).
Proof.
  intros K A. split; [|split].
  - eapply (proj1 (sha1_extend_outcome _ K A 8)). vm_compute. reflexivity.
  - eapply (proj1 (proj2 (sha1_extend_outcome _ K A (-4)) _ _)).
    Unshelve. 3: vm_compute; reflexivity. vm_compute. left. reflexivity.
  - eapply (proj2 (proj2 (sha1_extend_outcome _ K A 8) _ _)).
    Unshelve. 4: vm_compute; reflexivity.
    + vm_compute. discriminate.
    + vm_compute. reflexivity.
Defined.

Lemma sha1_extend_inv (hex : list ascii) (K A : list byte) (n : Z)
  (d : list ascii) (s : list byte) :
  sha1_extend hex K A n = OK (d, s) ->
  exists h p new_hash,
    parse_state hex = OK h /\
    sha1_padding (n + Py.len K) = OK p /\
    sha1_extend_hash h A (n + Py.len K + Py.len p) = OK new_hash /\
    d = Py.hex new_hash /\ s = K ++ p ++ A.
Proof.
  unfold sha1_extend. intros H.
  apply result_bind_ok in H as (h & Hh & H).
  apply result_bind_ok in H as (p & Hp & H).
  apply result_bind_ok in H as (new_hash & Hn & H).
  injection H as <- <-. exists h, p, new_hash. auto.
Qed.

(** Guesses of the secret length.  Two calls on the same digest and
    appended bytes return the same forged digest when their assumed total
    lengths [secret_length + len(original_data)] fall in the same block
    (equal quotients of the length plus 8 by 64), whatever the known
    suffixes; and two different guesses for one known suffix never return the
    same forged suffix. *)
Theorem sha1_extend_length_guesses (hex : list ascii) (K K' A : list byte) (n n' : Z)
  (d d' : list ascii) (s s' : list byte) :
  sha1_extend hex K A n = OK (d, s) ->
  sha1_extend hex K' A n' = OK (d', s') ->
  ((n + Py.len K + 8) / 64 = (n' + Py.len K' + 8) / 64 -> d = d') /\
  (K = K' -> n <> n' -> s <> s').
Proof.
  intros H H'.
  apply sha1_extend_inv in H as (h & p & nh & Hh & Hp & Hn & -> & ->).
  apply sha1_extend_inv in H' as (h' & p' & nh' & Hh' & Hp' & Hn' & -> & ->).
  assert (h' = h) by congruence. subst h'.
  split.
  - intros Hq. f_equal.
    pose proof (sha1_padding_total_len _ _ Hp) as Ht.
    pose proof (sha1_padding_total_len _ _ Hp') as Ht'.
    rewrite Ht in Hn. rewrite Ht', <- Hq in Hn'. congruence.
  - intros <- Hne E. apply app_inv_head, app_inv_tail in E. subst p'.
    apply sha1_padding_tail in Hp, Hp'. lia.
Qed.

(** The demonstration with the secret length guessed 8 and 9: one forged
    digest, two forged suffixes. *)
Lemma sha1_extend_length_guesses_witness :
  let hex := String.list_ascii_of_string "fc2a81bbc8232906a77d3f9858a38371ae776861"%string in
  let K := String.list_byte_of_string "A|5"%string in
  let A := String.list_byte_of_string "|1000000000"%string in
  match sha1_extend hex K A 8, sha1_extend hex K A 9 with
  | OK (d, s), OK (d', s') => d = d' /\ s <> s'
  | _, _ => False
  end.
Proof.
  intros hex K A.
  destruct (sha1_extend hex K A 8) as [[d s]|e] eqn:E;
    [|vm_compute in E; discriminate].
  destruct (sha1_extend hex K A 9) as [[d' s']|e] eqn:E';
    [|vm_compute in E'; discriminate].
  destruct (sha1_extend_length_guesses hex K K A 8 9 d d' s s' E E') as [Hd Hs].
  split; [apply Hd; reflexivity | apply Hs; [reflexivity | lia]].
Defined.

Lemma sha1_extend_hash_inv (init : list Z) (data : list byte) (prev : Z) (d : list byte) :
  sha1_extend_hash init data prev = OK d ->
  exists st, state_ok st /\ d = state_bytes st.
Proof.
  unfold sha1_extend_hash.
  destruct init as [|h0 [|h1 [|h2 [|h3 [|h4 [|h5 t]]]]]]; try discriminate.
  intros H. apply result_bind_ok in H as (pad & _ & H).
  apply result_bind_ok in H as (st & _ & H).
  destruct st as [[[[a b] c] e] f]. apply pack_5I_inv in H as [Hok ->].
  exists (a, b, c, e, f). auto.
Qed.

Lemma hex_char_lower (x : Z) : 0 <= x < 16 -> is_lower_hex (Py.hex_char x) = true.
Proof.
  intros H.
  assert (C : x = 0 \/ x = 1 \/ x = 2 \/ x = 3 \/ x = 4 \/ x = 5 \/ x = 6 \/ x = 7 \/
              x = 8 \/ x = 9 \/ x = 10 \/ x = 11 \/ x = 12 \/ x = 13 \/ x = 14 \/ x = 15)
    by lia.
  repeat (destruct C as [->|C]; [reflexivity|]).
  subst x. reflexivity.
Qed.

Lemma hex_is_lower_hex (bs : list byte) :
  Forall (fun c => is_lower_hex c = true) (Py.hex bs).
Proof.
  induction bs as [|b bs IH]; cbn [Py.hex flat_map app]; [constructor|].
  destruct (byte_nibbles b) as (Hh & Hl & _).
  constructor; [apply hex_char_lower, Hh|].
  constructor; [apply hex_char_lower, Hl | exact IH].
Qed.

(** The digest [sha1_extend] returns is 40 characters among 0-9 and a-f,
    the hexadecimal form of five words below 2^32, and it parses back to
    these words: it can be the digest argument of a further call. *)
Theorem sha1_extend_digest_format (hex : list ascii) (K A : list byte) (n : Z)
  (d : list ascii) (s : list byte) :
  sha1_extend hex K A n = OK (d, s) ->
  length d = 40%nat /\
  Forall (fun c => is_lower_hex c = true) d /\
  exists st, state_ok st /\ d = Py.hex (state_bytes st) /\
             parse_state d = OK (state_words st).
Proof.
  intros H. apply sha1_extend_inv in H as (h & p & nh & _ & _ & Hn & -> & _).
  apply sha1_extend_hash_inv in Hn as (st & Hok & ->).
  split; [rewrite length_hex, length_state_bytes; reflexivity|].
  split; [apply hex_is_lower_hex|].
  exists st. split; [exact Hok|]. split; [reflexivity|].
  destruct st as [[[[a b] c] e] f]. apply parse_state_hex_digest, Hok.
Qed.

Lemma sha1_extend_digest_format_witness :
  let d := String.list_ascii_of_string "30a28d3ce1db6da40eab89ba52c43da1dd3de1aa"%string in
  length d = 40%nat /\
  Forall (fun c => is_lower_hex c = true) d /\
  exists st, state_ok st /\ d = Py.hex (state_bytes st) /\
             parse_state d = OK (state_words st).
Proof.
  eapply (sha1_extend_digest_format
            (String.list_ascii_of_string "fc2a81bbc8232906a77d3f9858a38371ae776861"%string)
            (String.list_byte_of_string "A|5"%string)
            (String.list_byte_of_string "|1000000000"%string) 8).
  vm_compute. reflexivity.
Defined.

(** [sha1_extend] reads the first 40 characters of its digest argument
    and nothing after them, whatever the string. *)
Theorem sha1_extend_reads_40 (hex : list ascii) (K A : list byte) (n : Z) :
  sha1_extend hex K A n = sha1_extend (firstn 40 hex) K A n.
Proof. unfold sha1_extend. rewrite parse_state_firstn. reflexivity. Qed.

Lemma code_ascii_of_N (n : Z) : 0 <= n < 256 -> Py.code (ascii_of_N (Z.to_N n)) = n.
Proof.
  intros H. unfold Py.code. rewrite N_ascii_embedding by lia. lia.
Qed.

Lemma code_range (c : ascii) : 0 <= Py.code c < 256.
Proof.
  unfold Py.code. pose proof (N_ascii_bounded c). lia.
Qed.

Lemma to_lower_hex (c : ascii) :
  is_hex c = true -> is_hex (to_lower c) = true /\ hex_val (to_lower c) = hex_val c.
Proof.
  intros H. unfold to_lower. cbv zeta.
  destruct ((65 <=? Py.code c) && (Py.code c <=? 90)) eqn:E; [|auto].
  apply andb_true_iff in E as [E1 E2]. apply Z.leb_le in E1, E2.
  assert (Hc : Py.code c <= 70).
  { revert H. unfold is_hex. cbv zeta. generalize (Py.code c) E1 E2. intros m ? ? H. zbool. }
  unfold is_hex, hex_val. cbv zeta. rewrite code_ascii_of_N by lia.
  split; zbool.
Qed.

Lemma hex_number_lower (l : list ascii) :
  Forall (fun c => is_hex c = true) l ->
  forall acc,
    fold_left (fun a c => 16 * a + hex_val c) (map to_lower l) acc
    = fold_left (fun a c => 16 * a + hex_val c) l acc.
Proof.
  induction 1 as [|c l Hc _ IH]; intros acc; cbn [map fold_left]; [reflexivity|].
  rewrite (proj2 (to_lower_hex c Hc)). apply IH.
Qed.

Lemma slice_map {A B : Type} (f : A -> B) (l : list A) (i j : Z) :
  Py.slice (map f l) i j = map f (Py.slice l i j).
Proof. unfold Py.slice. rewrite skipn_map, firstn_map. reflexivity. Qed.

(** The digest argument is read without regard to case: a digest of
    hexadecimal digits gives the same result with its capital letters made
    small. *)
Theorem sha1_extend_case_insensitive (hex : list ascii) (K A : list byte) (n : Z) :
  (40 <= length hex)%nat -> Forall (fun c => is_hex c = true) (firstn 40 hex) ->
  sha1_extend (map to_lower hex) K A n = sha1_extend hex K A n.
Proof.
  intros Hlen Hhex. unfold sha1_extend.
  rewrite (parse_state_hex hex Hlen Hhex).
  rewrite parse_state_hex.
  - replace (hex_state (map to_lower hex)) with (hex_state hex); [reflexivity|].
    unfold hex_state. apply map_ext_in. intros i Hi.
    assert (Hi' : 0 <= i /\ i + 8 <= 40) by (cbn [In] in Hi; lia).
    rewrite slice_map. unfold hex_number. rewrite hex_number_lower; [reflexivity|].
    rewrite <- (slice_firstn hex i (i + 8) 40) by lia. apply Forall_slice, Hhex.
  - rewrite length_map. exact Hlen.
  - rewrite firstn_map. apply Forall_map.
    eapply Forall_impl; [|exact Hhex]. intros c Hc. apply to_lower_hex, Hc.
Qed.

(** The demonstration's digest in capital letters. *)
Lemma sha1_extend_case_insensitive_witness :
  let K := String.list_byte_of_string "A|5"%string in
  let A := String.list_byte_of_string "|1000000000"%string in
  sha1_extend (String.list_ascii_of_string "fc2a81bbc8232906a77d3f9858a38371ae776861"%string)
    K A 8
  = sha1_extend (String.list_ascii_of_string "FC2A81BBC8232906A77D3F9858A38371AE776861"%string)
      K A 8.
Proof.
  intros K A.
  apply (sha1_extend_case_insensitive
           (String.list_ascii_of_string "FC2A81BBC8232906A77D3F9858A38371AE776861"%string)
           K A 8).
  - vm_compute. lia.
  - repeat constructor.
Defined.

(** ** Test vectors *)

(** The digests of the empty message and of abc (FIPS 180 examples). *)
Example digest_empty :
  digest []
  = OK (fromhex (String.list_ascii_of_string "da39a3ee5e6b4b0d3255bfef95601890afd80709"%string)).
Proof. vm_compute. reflexivity. Qed.

Example digest_abc :
  digest (String.list_byte_of_string "abc"%string)
  = OK (fromhex (String.list_ascii_of_string "a9993e364706816aba3e25717850c26c9cd0d89d"%string)).
Proof. vm_compute. reflexivity. Qed.

(** The demonstration at the end of the module. *)
Example sha1_extend_demonstration :
  let secret := String.list_byte_of_string "mysecret"%string in
  let original_data := String.list_byte_of_string "A|5"%string in
  let append_data := String.list_byte_of_string "|1000000000"%string in
  digest (secret ++ original_data)
  = OK (fromhex (String.list_ascii_of_string "fc2a81bbc8232906a77d3f9858a38371ae776861"%string)) /\
  exists new_data,
    sha1_extend (String.list_ascii_of_string "fc2a81bbc8232906a77d3f9858a38371ae776861"%string)
      original_data append_data (Py.len secret)
    = OK (String.list_ascii_of_string "30a28d3ce1db6da40eab89ba52c43da1dd3de1aa"%string, new_data) /\
    length new_data = 67%nat /\
    digest (secret ++ new_data)
    = OK (fromhex (String.list_ascii_of_string "30a28d3ce1db6da40eab89ba52c43da1dd3de1aa"%string)).
Proof.
  split; [vm_compute; reflexivity|].
  eexists. split; [vm_compute; reflexivity|].
  split; vm_compute; reflexivity.
Qed.

(** The standard on the vectors of FIPS 180 (abc and the 56-byte message)
    and on the empty message. *)
Example standard_hexdigest_vectors :
  Sha1.hexdigest []
  = String.list_ascii_of_string "da39a3ee5e6b4b0d3255bfef95601890afd80709"%string /\
  Sha1.hexdigest (String.list_byte_of_string "abc"%string)
  = String.list_ascii_of_string "a9993e364706816aba3e25717850c26c9cd0d89d"%string /\
  Sha1.hexdigest
    (String.list_byte_of_string
       "abcdbcdecdefdefgefghfghighijhijkijkljklmklmnlmnomnopnopq"%string)
  = String.list_ascii_of_string "84983e441c3bd26ebaae4aa1f95129e5e54670f1"%string.
Proof. repeat split; vm_compute; reflexivity. Qed.

(** The two digests of the demonstration, by the standard. *)
Example standard_hexdigest_demonstration :
  let secret := String.list_byte_of_string "mysecret"%string in
  let original_data := String.list_byte_of_string "A|5"%string in
  let append_data := String.list_byte_of_string "|1000000000"%string in
  Sha1.hexdigest (secret ++ original_data)
  = String.list_ascii_of_string "fc2a81bbc8232906a77d3f9858a38371ae776861"%string /\
  Sha1.hexdigest (secret ++ original_data ++ Sha1.pad 11 ++ append_data)
  = String.list_ascii_of_string "30a28d3ce1db6da40eab89ba52c43da1dd3de1aa"%string.
Proof. split; vm_compute; reflexivity. Qed.
